(** * Watchface: a shallow embedding of [src/components/Watchface.tsx]

    The component renders an analog/digital watch face from a one-second
    clock, three simulators (battery, steps, heart rate), a weather fetcher
    and a second-timezone projector.  This file embeds the functions and
    hooks of that source file and states the properties of the component's
    specification over them.

    Number model.  A JavaScript [number] is embedded as an exact number: a
    rational ([Q]) wherever the source uses only field arithmetic,
    [Math.max], [Math.min] and [Math.round], so that the definitions
    evaluate; a real ([R]) in the steps simulator, which calls [Math.sin] on
    a multiple of [Math.PI].  Binary64 rounding error, [NaN] and the
    infinities are outside the model; the initial battery computation is
    evaluated in binary64 arithmetic as well, as a cross-check.  Integer
    quantities of the source (epoch milliseconds, calendar fields) are
    [Z].

    Time zones.  The host's time zone is a parameter of everything that
    turns a local time into an instant ([setHours], the [Date] constructor
    on a date-time string): an initial UTC offset and a list of
    transitions, read the way ECMAScript's [LocalTime] and [UTC] read the
    platform's time-zone database. *)

From Stdlib Require Import ZArith QArith Qround Qminmax Reals Psatz.
From Stdlib Require Import String Ascii List DecimalString.
From Stdlib Require Floats.
From stdpp Require Import gmap strings.

Set Warnings "-register-all,-inexact-float,-abstract-large-number".

Open Scope Q_scope.

(* ===================================================================== *)
(** ** Numeric helpers of the source and of the platform ([Math]) *)
(* ===================================================================== *)

(** [Math.max], [Math.min] on finite numbers. *)
Definition Math_max (a b : Q) : Q := Qmax a b.
Definition Math_min (a b : Q) : Q := Qmin a b.

(** [Math.round]: the nearest integer, ties towards plus infinity, that is
    [floor (x + 1/2)]. *)
Definition Math_round (x : Q) : Z := Qfloor (x + (1 # 2)).

(** [function clamp(value, min, max) { return Math.min(max, Math.max(min, value)); }] *)
Definition clamp (value min max : Q) : Q := Math_min max (Math_max min value).

(** [parseInt(s, 10)] on an item whose decimal string denotes [q]: the digits
    before the decimal point, i.e. [q] truncated towards zero. *)
Definition parseInt (q : Q) : Z := Z.quot (Qnum q) (Zpos (Qden q)).

(* ===================================================================== *)
(** ** Battery simulator: [useSimulatedBattery] *)
(* ===================================================================== *)

(** [localStorage]: string keys; an item is represented by the number its
    string denotes ([String(n)] written, [parseFloat]/[parseInt] read).  An
    absent key is [getItem(..) === null]. *)
Abbreviation Storage := (gmap string Q).

Definition key_batteryPercent : string := "batteryPercent".
Definition key_batteryUpdatedAt : string := "batteryUpdatedAt".

(** The lazy initial state of [useState] (source lines 42-52).
    [window] is [typeof window !== "undefined"]; [random] is the value of
    [Math.random()]; [t0] and [t1] are the two successive readings of
    [Date.now()] on lines 47 and 48. *)
Definition useSimulatedBattery_init
    (window : bool) (localStorage : Storage) (random : Q) (t0 t1 : Z) : Q :=
  if negb window then 75
  else
    let stored := localStorage !! key_batteryPercent in
    let updatedAt := localStorage !! key_batteryUpdatedAt in
    let baseline :=
      match stored with
      | Some s => s
      | None => inject_Z (Math_round (60 + random * 40))
      end in
    let last :=
      match updatedAt with
      | Some u => parseInt u
      | None => t0
      end in
    let minutesSince := inject_Z (t1 - last) / 60000 in
    let drained := Math_max 0 (baseline - minutesSince * 0.04) in
    inject_Z (Math_round (drained * 10)) / 10.

(** The state updater of the one-second interval (source lines 57-62):
    the next battery value. *)
Definition battery_next (b : Q) : Q := clamp (b - 0.0007) 0 100.

(** One interval callback: the new state and the two [setItem] writes;
    [now] is [Date.now()] at the callback. *)
Definition useSimulatedBattery_tick
    (now : Z) (st : Q * Storage) : Q * Storage :=
  let '(b, localStorage) := st in
  let next := battery_next b in
  (next,
   <[key_batteryUpdatedAt := inject_Z now]>
     (<[key_batteryPercent := next]> localStorage)).

(** A running session: the interval callbacks at the clock readings [ticks],
    oldest first. *)
Definition battery_session (ticks : list Z) (st : Q * Storage) : Q * Storage :=
  fold_left (fun s now => useSimulatedBattery_tick now s) ticks st.

(** The battery value after [n] interval callbacks, starting from [b]. *)
Fixpoint battery_after (n : nat) (b : Q) : Q :=
  match n with
  | O => b
  | S k => battery_next (battery_after k b)
  end.

(* ===================================================================== *)
(** ** The clock: [Date] values and their local calendar fields *)
(* ===================================================================== *)

(** A [Date] is an instant, [getTime] milliseconds after the epoch.  Its
    local-time getters consult the host's time zone; [utcOffset] is the
    host's offset from UTC at that instant, in milliseconds east of UTC. *)
Record Date := mkDate { getTime : Z; utcOffset : Z }.

(** Milliseconds of local wall-clock time since the local epoch. *)
Definition localMs (d : Date) : Z := (getTime d + utcOffset d)%Z.

Definition getHours (d : Date) : Z := ((localMs d / 3600000) mod 24)%Z.
Definition getMinutes (d : Date) : Z := ((localMs d / 60000) mod 60)%Z.
Definition getSeconds (d : Date) : Z := ((localMs d / 1000) mod 60)%Z.
Definition getMilliseconds (d : Date) : Z := (localMs d mod 1000)%Z.

(** The local calendar day an instant falls on (days since the local epoch). *)
Definition localDay (d : Date) : Z := (localMs d / 86400000)%Z.

(** The host's time zone as the platform's time-zone database gives it: the
    offset from UTC (milliseconds east) in force before the first
    transition, and the transitions in chronological order, each with its
    instant and the offset in force from then on. *)
Record TimeZone := mkTimeZone { initialOffset : Z; transitions : list (Z * Z) }.

Fixpoint offset_from (o : Z) (trs : list (Z * Z)) (t : Z) : Z :=
  match trs with
  | [] => o
  | (T, o') :: rest => if (t <? T)%Z then o else offset_from o' rest t
  end.

(** The host's offset from UTC at the instant [t]. *)
Definition offsetAt (host : TimeZone) (t : Z) : Z :=
  offset_from (initialOffset host) (transitions host) t.

(** [new Date(t)] on the host. *)
Definition Date_at (host : TimeZone) (t : Z) : Date := mkDate t (offsetAt host t).

(** The instants at which the host's clock shows the local time [l],
    earliest first: none for a local time skipped at a forward change of
    the offset, two for one repeated at a backward change.  [start] is the
    instant the period of offset [o] begins at. *)
Fixpoint instants_from
    (o : Z) (start : option Z) (trs : list (Z * Z)) (l : Z) : list Z :=
  let u := (l - o)%Z in
  let started := match start with Some s => (s <=? u)%Z | None => true end in
  match trs with
  | [] => if started then [u] else []
  | (T, o') :: rest =>
      (if started && (u <? T)%Z then [u] else [])
      ++ instants_from o' (Some T) rest l
  end.

Definition possibleInstants (host : TimeZone) (l : Z) : list Z :=
  instants_from (initialOffset host) None (transitions host) l.

(** The last local time of each period that is ended by a transition. *)
Fixpoint local_ends (o : Z) (trs : list (Z * Z)) : list Z :=
  match trs with
  | [] => []
  | (T, o') :: rest => (T + o - 1)%Z :: local_ends o' rest
  end.

(** The largest local time before [l] that the host's clock shows: the last
    local time before the transition that skips [l]. *)
Definition tBefore (host : TimeZone) (l : Z) : option Z :=
  foldr (fun c best => match best with
                       | Some b => Some (Z.max b c)
                       | None => Some c
                       end)
        None
        (List.filter
           (fun c => (c <? l)%Z
                     && match possibleInstants host c with [] => false | _ => true end)
           (local_ends (initialOffset host) (transitions host))).

(** The instant the platform takes a local time [l] of the host for
    (ECMAScript's [UTC(t)]): the earliest instant at which the clock shows
    [l]; a skipped [l] is read with the offset in force before the
    transition that skips it. *)
Definition UTC (host : TimeZone) (l : Z) : Z :=
  match possibleInstants host l with
  | u :: _ => (l - offsetAt host u)%Z
  | [] =>
      match tBefore host l with
      | Some c =>
          match last (possibleInstants host c) with
          | Some d => (l - offsetAt host d)%Z
          | None => (l - initialOffset host)%Z
          end
      | None => (l - initialOffset host)%Z
      end
  end.

(** The [Date] the platform builds from the local time [l] of the host. *)
Definition Date_of_local (host : TimeZone) (l : Z) : Date := Date_at host (UTC host l).

(** [const d = new Date(now); d.setHours(0, 0, 0, 0)]: the local time
    00:00:00.000 of the local day of [now], turned into an instant by the
    host's time zone. *)
Definition startOfDay (host : TimeZone) (now : Date) : Date :=
  Date_of_local host (86400000 * localDay now)%Z.

(* ===================================================================== *)
(** ** Steps simulator: [useSimulatedSteps] *)
(* ===================================================================== *)

(** [Math.round] and [clamp] at the real-number model. *)
Definition Math_roundR (x : R) : Z := Zfloor (x + / 2).
Definition clampR (value min max : R) : R := Rmin max (Rmax min value).

Definition goal : R := 10000%R.

(** [dayProgress] of source line 76; [host] is the time zone of the host
    the component runs on. *)
Definition dayProgress (host : TimeZone) (now : Date) : R :=
  clampR (IZR (getTime now - getTime (startOfDay host now)) / (24 * 3600 * 1000)) 0 1.

(** [circadian] of source line 77. *)
Definition circadian (now : Date) : R :=
  (0.5 + 0.5 * sin ((IZR (getHours now) - 6) / 24 * PI * 2))%R.

(** The unclamped [steps] of source line 78. *)
Definition steps_rounded (host : TimeZone) (now : Date) : Z :=
  Math_roundR (goal * dayProgress host now * (0.7 + 0.6 * circadian now)).

Definition useSimulatedSteps (host : TimeZone) (now : Date) : R :=
  clampR (IZR (steps_rounded host now)) 0 goal.

(* ===================================================================== *)
(** ** Hand angles: [handAngle] *)
(* ===================================================================== *)

Record HandAngles := mkAngles { hour : Q; minute : Q; second : Q }.

Definition handAngle (now : Date) : HandAngles :=
  let h := (getHours now mod 12)%Z in
  let m := getMinutes now in
  let s := getSeconds now in
  {| hour := (inject_Z h + inject_Z m / 60) * 30;
     minute := (inject_Z m + inject_Z s / 60) * 6;
     second := inject_Z s * 6 |}.

(* ===================================================================== *)
(** ** Weather icon: [mapWeatherCodeToIcon] *)
(* ===================================================================== *)

(** [Array.prototype.includes] on an array of numbers. *)
Definition includes (l : list Q) (x : Q) : bool := existsb (Qeq_bool x) l.

(** The icon glyphs, as the source file spells them. *)
Definition mapWeatherCodeToIcon (code : option Q) : string :=
  match code with
  | None => "?"
  | Some code =>
      if includes [0] code then "?"                              (* clear *)
      else if includes [1; 2; 3] code then "?"                   (* partly cloudy *)
      else if includes [45; 48] code then "??"                   (* fog *)
      else if includes [51; 53; 55; 56; 57] code then "??"       (* drizzle *)
      else if includes [61; 63; 65; 80; 81; 82] code then "??"   (* rain *)
      else if includes [66; 67; 71; 73; 75; 77; 85; 86] code then "??" (* snow *)
      else if includes [95; 96; 99] code then "?"                (* thunder *)
      else "?"
  end.

(* ===================================================================== *)
(** ** Weather fetcher: [useWeather] *)
(* ===================================================================== *)

(** The value [res.json()] resolves to.  An object is a finite map from
    property names to values. *)
Inductive json :=
| JNull
| JBool (b : bool)
| JNum (q : Q)
| JStr (s : string)
| JArr (items : list json)
| JObj (props : gmap string json).

(** A JavaScript value read out of the payload: [None] is [undefined]. *)
Abbreviation jsval := (option json).

(** [v?.k] for the property names the source reads ([current], [daily],
    [temperature_2m], [weather_code], [sunrise], [sunset]): none of them is
    a property of an array, string, number or boolean. *)
Definition member (k : string) (v : jsval) : jsval :=
  match v with
  | Some (JObj props) => props !! k
  | _ => None
  end.

(** [v?.[0]]. *)
Definition item0 (v : jsval) : jsval :=
  match v with
  | Some (JArr items) => items !! 0%nat
  | Some (JStr (String c _)) => Some (JStr (String c EmptyString))
  | Some (JObj props) => props !! "0"
  | _ => None
  end.

(** [typeof v === "number" ? v : null]. *)
Definition number_or_null (v : jsval) : option Q :=
  match v with
  | Some (JNum q) => Some q
  | _ => None
  end.

(** JavaScript truthiness. *)
Definition truthy (v : jsval) : bool :=
  match v with
  | None | Some JNull => false
  | Some (JBool b) => b
  | Some (JNum q) => negb (Qeq_bool q 0)
  | Some (JStr s) => negb (String.eqb s "")
  | Some (JArr _) | Some (JObj _) => true
  end.

(** The object [new Date(arg)] builds, kept symbolic: the snapshot only
    distinguishes a date object from [null]. *)
Inductive DateObject := NewDate (arg : json).

(** [v ? new Date(v) : null]. *)
Definition date_or_null (v : jsval) : option DateObject :=
  match v with
  | Some arg => if truthy v then Some (NewDate arg) else None
  | None => None
  end.

(** [type WeatherData]: [None] is [null]. *)
Record WeatherData := mkWeather {
  temperatureC : option Q;
  weatherCode : option Q;
  sunrise : option DateObject;
  sunset : option DateObject
}.

(** The initial state of [useState<WeatherData>]. *)
Definition unknownWeather : WeatherData := mkWeather None None None None.

(** What awaiting [res.json()] yields: a rejection (the body is not JSON) or
    the parsed value. *)
Inductive Body := BodyRejects | BodyJson (j : json).

(** What awaiting [fetch(url)] yields: a rejection (network error) or a
    response with its [ok] flag and body. *)
Inductive FetchOutcome := FetchRejects | FetchResponse (ok : bool) (body : Body).

(** Source lines 112-118: the object handed to [setData] on the success
    path. *)
Definition snapshot_of (j : json) : WeatherData :=
  let temperatureC := number_or_null (member "temperature_2m" (member "current" (Some j))) in
  let weatherCode := number_or_null (member "weather_code" (member "current" (Some j))) in
  let sunriseStr := item0 (member "sunrise" (member "daily" (Some j))) in
  let sunsetStr := item0 (member "sunset" (member "daily" (Some j))) in
  let sunrise := date_or_null sunriseStr in
  let sunset := date_or_null sunsetStr in
  mkWeather temperatureC weatherCode sunrise sunset.

(** Turning a value read out of JSON into a primitive throws a TypeError:
    a property of a parsed object is never callable, so an object with an
    own property [toString] has no method left that yields a primitive
    ([valueOf] of [Object.prototype] returns the object itself); an array
    is joined, which converts its elements the same way. *)
Fixpoint ToPrimitive_throws (v : json) : bool :=
  match v with
  | JObj props => bool_decide (is_Some (props !! "toString"))
  | JArr items => existsb ToPrimitive_throws items
  | _ => false
  end.

(** Evaluating [v ? new Date(v) : null] throws: the constructor converts
    its argument to a primitive first. *)
Definition new_Date_throws (v : jsval) : bool :=
  match v with
  | Some arg => truthy v && ToPrimitive_throws arg
  | None => false
  end.

(** Source lines 114-117 throw for the payload [j]. *)
Definition dates_throw (j : json) : bool :=
  new_Date_throws (item0 (member "sunrise" (member "daily" (Some j))))
  || new_Date_throws (item0 (member "sunset" (member "daily" (Some j)))).

(** The [try] block of [fetchWeather] up to [setData]: [None] when it throws
    (the fetch rejects, [!res.ok], [res.json()] rejects, or one of the two
    [new Date] calls throws). *)
Definition try_fetch (o : FetchOutcome) : option WeatherData :=
  match o with
  | FetchRejects => None
  | FetchResponse ok body =>
      if negb ok then None
      else match body with
           | BodyRejects => None
           | BodyJson j => if dates_throw j then None else Some (snapshot_of j)
           end
  end.

(** The object spread [{ ...d }] of the [catch] block. *)
Definition spread (d : WeatherData) : WeatherData :=
  mkWeather (temperatureC d) (weatherCode d) (sunrise d) (sunset d).

(** The effect of one settled [fetchWeather] call on the [data] state;
    [cancelled] is the flag of the effect run the call belongs to. *)
Definition fetchWeather_settle
    (cancelled : bool) (o : FetchOutcome) (d : WeatherData) : WeatherData :=
  match try_fetch o with
  | Some snapshot => if negb cancelled then snapshot else d
  | None => if negb cancelled then spread d else d
  end.

(** *** The hook as a state machine over the component's events *)

(** Where one run of the effect stands. *)
Inductive Phase :=
| Locating                    (* getCurrentPosition registered, no callback yet *)
| Fetching                    (* fetch(url) issued, not settled *)
| Settled.

Record EffectRun := mkRun { cancelled : bool; phase : Phase }.

(** One [fetch(url)] call: the time of the [now] its effect run was started
    for, and the coordinates requested. *)
Record Request := mkRequest { req_now : Z; latitude : Q; longitude : Q }.

Record Hook := mkHook {
  now_ref : nat;              (* identity of the Date object held by useNow *)
  now_time : Z;               (* its getTime() *)
  deps_ref : nat;             (* identity of [now] the effect last ran for *)
  data : WeatherData;
  runs : list EffectRun;      (* effect runs, oldest first *)
  run_now : list Z;           (* the time of [now] each run was started for *)
  requests : list Request     (* fetch calls issued, oldest first *)
}.

Inductive Event :=
| Tick (t : Z)                          (* setNow(new Date()) and the re-render *)
| Rerender                              (* re-render for another hook's state *)
| GeoSuccess (run : nat) (lat lon : Q)  (* position callback of a run *)
| GeoError (run : nat)                  (* error callback of a run *)
| FetchSettles (run : nat) (o : FetchOutcome).

(** London fallback coordinates. *)
Definition fallback_lat : Q := 51.5074.
Definition fallback_lon : Q := - 0.1278.

(** The cleanup function of the latest effect run: [cancelled = true]. *)
Definition cleanup (rs : list EffectRun) : list EffectRun :=
  match length rs with
  | O => rs
  | S i => alter (fun r => mkRun true (phase r)) i rs
  end.

(** The effect body (source lines 97-138) for the current [now];
    [geolocation] is the truthiness of [navigator.geolocation]. *)
Definition run_effect (geolocation : bool) (h : Hook) : Hook :=
  if geolocation then
    mkHook (now_ref h) (now_time h) (now_ref h) (data h)
           (runs h ++ [mkRun false Locating]) (run_now h ++ [now_time h])
           (requests h)
  else
    mkHook (now_ref h) (now_time h) (now_ref h) (data h)
           (runs h ++ [mkRun false Fetching]) (run_now h ++ [now_time h])
           (requests h ++ [mkRequest (now_time h) fallback_lat fallback_lon]).

(** After a render React compares the dependency [now] with [Object.is]:
    when it differs, the previous cleanup runs and then the effect. *)
Definition commit (geolocation : bool) (h : Hook) : Hook :=
  if Nat.eqb (now_ref h) (deps_ref h) then h
  else run_effect geolocation
         (mkHook (now_ref h) (now_time h) (deps_ref h) (data h)
                 (cleanup (runs h)) (run_now h) (requests h)).

(** [fetchWeather(lat, lon)] called from a geolocation callback of [run]. *)
Definition start_fetch (run : nat) (lat lon : Q) (h : Hook) : Hook :=
  match runs h !! run, run_now h !! run with
  | Some (mkRun c Locating), Some t =>
      mkHook (now_ref h) (now_time h) (deps_ref h) (data h)
             (<[run := mkRun c Fetching]> (runs h)) (run_now h)
             (requests h ++ [mkRequest t lat lon])
  | _, _ => h
  end.

Definition step (geolocation : bool) (e : Event) (h : Hook) : Hook :=
  match e with
  | Tick t =>
      commit geolocation
        (mkHook (S (now_ref h)) t (deps_ref h) (data h)
                (runs h) (run_now h) (requests h))
  | Rerender => commit geolocation h
  | GeoSuccess run lat lon => start_fetch run lat lon h
  | GeoError run => start_fetch run fallback_lat fallback_lon h
  | FetchSettles run o =>
      match runs h !! run with
      | Some (mkRun c Fetching) =>
          mkHook (now_ref h) (now_time h) (deps_ref h)
                 (fetchWeather_settle c o (data h))
                 (<[run := mkRun c Settled]> (runs h)) (run_now h)
                 (requests h)
      | _ => h
      end
  end.

(** The mounted hook: first render at time [t0] and its effect. *)
Definition mount (geolocation : bool) (t0 : Z) : Hook :=
  run_effect geolocation (mkHook 1 t0 0 unknownWeather [] [] []).

Definition run_events (geolocation : bool) (es : list Event) (h : Hook) : Hook :=
  fold_left (fun s e => step geolocation e s) es h.

(** The clock minute an instant falls in. *)
Definition minute_of (t : Z) : Z := (t / 60000)%Z.

(** How many of the issued requests were started for a [now] in minute [m]. *)
Definition requests_in_minute (m : Z) (h : Hook) : nat :=
  length (filter (fun r => minute_of (req_now r) = m) (requests h)).

(* ===================================================================== *)
(** ** Second time zone: [formatTwoDigits], [formatHhMm], [getZonedDate] *)
(* ===================================================================== *)

(** [n.toString()] of an integer. *)
Definition toString (n : Z) : string := NilZero.string_of_int (Z.to_int n).

(** The first [k] characters of [fill] repeated; [rest] is what is left of
    the current copy of [fill]. *)
Fixpoint fill_prefix (k : nat) (fill rest : string) : string :=
  match k with
  | O => EmptyString
  | S k' =>
      match rest with
      | String c r => String c (fill_prefix k' fill r)
      | EmptyString =>
          match fill with
          | String c r => String c (fill_prefix k' fill r)
          | EmptyString => EmptyString
          end
      end
  end.

(** [s.padStart(targetLength, fill)]. *)
Definition padStart (targetLength : nat) (fill s : string) : string :=
  (fill_prefix (targetLength - String.length s) fill fill ++ s)%string.

(** [function formatTwoDigits(n) { return n.toString().padStart(2, "0"); }] *)
Definition formatTwoDigits (n : Z) : string := padStart 2 "0" (toString n).

(** [function formatHhMm(now)]. *)
Definition formatHhMm (now : Date) : string :=
  (formatTwoDigits (getHours now) ++ ":" ++ formatTwoDigits (getMinutes now))%string.

(** The proleptic Gregorian date (year, month, day) of a day number counted
    from 1970-01-01, and back: the calendar arithmetic of the platform's
    [Intl.DateTimeFormat] and [Date] constructor. *)
Definition civil_from_days (z : Z) : Z * Z * Z :=
  (let z := z + 719468 in
   let era := z / 146097 in
   let doe := z - era * 146097 in
   let yoe := (doe - doe / 1460 + doe / 36524 - doe / 146096) / 365 in
   let y := yoe + era * 400 in
   let doy := doe - (365 * yoe + yoe / 4 - yoe / 100) in
   let mp := (5 * doy + 2) / 153 in
   let d := doy - (153 * mp + 2) / 5 + 1 in
   let m := if mp <? 10 then mp + 3 else mp - 9 in
   (if m <=? 2 then y + 1 else y, m, d))%Z.

Definition days_from_civil (y m d : Z) : Z :=
  (let y := if m <=? 2 then y - 1 else y in
   let era := y / 400 in
   let yoe := y - era * 400 in
   let doy := (153 * (if 2 <? m then m - 3 else m + 9) + 2) / 5 + d - 1 in
   let doe := yoe * 365 + yoe / 4 - yoe / 100 + doy in
   era * 146097 + doe - 719468)%Z.

(** One entry of [formatToParts]. *)
Record Part := mkPart { type : string; value : string }.

(** [new Intl.DateTimeFormat("en-US", { timeZone, hour12: false, year:
    "numeric", month/day/hour/minute/second: "2-digit" }).formatToParts(now)]
    for a zone whose offset from UTC at [now] is [zoneOffset] milliseconds:
    the en-US pattern [MM/dd/yyyy, HH:mm:ss] on the 0-23 hour cycle. *)
Definition formatToParts (zoneOffset : Z) (now : Z) : list Part :=
  let wall := (now + zoneOffset)%Z in
  let '(y, m, d) := civil_from_days (wall / 86400000) in
  [ mkPart "month" (formatTwoDigits m); mkPart "literal" "/";
    mkPart "day" (formatTwoDigits d); mkPart "literal" "/";
    mkPart "year" (toString y); mkPart "literal" ", ";
    mkPart "hour" (formatTwoDigits ((wall / 3600000) mod 24)); mkPart "literal" ":";
    mkPart "minute" (formatTwoDigits ((wall / 60000) mod 60)); mkPart "literal" ":";
    mkPart "second" (formatTwoDigits ((wall / 1000) mod 60)) ].

(** The [reduce] of source lines 188-191 into a [Record<string, string>]. *)
Definition collect_parts (ps : list Part) : gmap string string :=
  fold_left
    (fun acc p => if String.eqb (type p) "literal" then acc
                  else <[type p := value p]> acc)
    ps ∅.

(** [`${parts.k}`]: an absent property interpolates as [undefined]. *)
Definition interpolate (parts : gmap string string) (k : string) : string :=
  default "undefined" (parts !! k).

(** Source line 192. *)
Definition iso_of_parts (parts : gmap string string) : string :=
  (interpolate parts "year" ++ "-" ++ interpolate parts "month" ++ "-"
   ++ interpolate parts "day" ++ "T" ++ interpolate parts "hour" ++ ":"
   ++ interpolate parts "minute" ++ ":" ++ interpolate parts "second")%string.

Definition digit_of (c : ascii) : option Z :=
  let n := Z.of_nat (nat_of_ascii c) in
  if ((48 <=? n) && (n <=? 57))%Z then Some (n - 48)%Z else None.

Fixpoint number_of (s : string) (acc : Z) : option Z :=
  match s with
  | EmptyString => Some acc
  | String c r =>
      match digit_of c with
      | Some d => number_of r (10 * acc + d)%Z
      | None => None
      end
  end.

Definition field (start len : nat) (s : string) : option Z :=
  number_of (substring start len s) 0.

Definition separator (pos : nat) (c : string) (s : string) : bool :=
  String.eqb (substring pos 1 s) c.

(** The date-time form [YYYY-MM-DDTHH:mm:ss] of the [Date] constructor's
    string argument: its six fields, or [None] (Invalid Date). *)
Definition parse_iso_local (s : string) : option (Z * Z * Z * Z * Z * Z) :=
  if Nat.eqb (String.length s) 19
     && separator 4 "-" s && separator 7 "-" s && separator 10 "T" s
     && separator 13 ":" s && separator 16 ":" s
  then
    y ← field 0 4 s; m ← field 5 2 s; d ← field 8 2 s;
    hh ← field 11 2 s; mm ← field 14 2 s; ss ← field 17 2 s;
    if ((1 <=? m) && (m <=? 12) && (1 <=? d) && (d <=? 31)
        && (hh <=? 23) && (mm <=? 59) && (ss <=? 59))%Z
    then Some (y, m, d, hh, mm, ss) else None
  else None.

(** [new Date(iso)] for a date-time string without offset: the fields are
    read as a local time of the host, which the host's time zone turns into
    an instant. *)
Definition Date_of_iso (host : TimeZone) (iso : string) : option Date :=
  '(y, m, d, hh, mm, ss) ← parse_iso_local iso;
  Some (Date_of_local host
          (days_from_civil y m d * 86400000 + hh * 3600000
           + mm * 60000 + ss * 1000)%Z).

(** [function getZonedDate(tz)].  [now] is the instant [new Date()] reads;
    [tzdata tz now] is the offset from UTC, in milliseconds, that the
    platform's time-zone database gives zone [tz] at that instant; [host]
    is the time zone of the host. *)
Definition getZonedDate
    (tzdata : string -> Z -> Z) (host : TimeZone) (tz : string) (now : Z)
    : option Date :=
  let parts := collect_parts (formatToParts (tzdata tz now) now) in
  let iso := iso_of_parts parts in
  Date_of_iso host iso.


(* ===================================================================== *)
(** ** Predicates and sample data of the statements *)
(* ===================================================================== *)

(** The persisted baseline is at most 100 (or, with nothing persisted, the
    random draw is at most 1). *)
Definition baseline_le_100 (ls : Storage) (random : Q) : Prop :=
  match ls !! key_batteryPercent with
  | Some s => s <= 100
  | None => random <= 1
  end.

(** The clock has not gone back since the persisted timestamp. *)
Definition elapsed_nonneg (ls : Storage) (t0 t1 : Z) : Prop :=
  match ls !! key_batteryUpdatedAt with
  | Some u => (parseInt u <= t1)%Z
  | None => (t0 <= t1)%Z
  end.

(** The storage of the examples: baseline 100, timestamp 60000000 ms. *)
Definition storage_ahead : Storage :=
  <[key_batteryPercent := 100]> (<[key_batteryUpdatedAt := 60000000]> ∅).

(** The glyphs the mapping can return. *)
Definition icons : list string := ["?"; "??"]%string.

(** The codes of the seven listed categories. *)
Definition listed_codes : list Q :=
  [0] ++ [1; 2; 3] ++ [45; 48] ++ [51; 53; 55; 56; 57]
  ++ [61; 63; 65; 80; 81; 82] ++ [66; 67; 71; 73; 75; 77; 85; 86]
  ++ [95; 96; 99].

(** The argument of [Math.sin] at local hour [h]. *)
Definition hour_angle (h : Z) : R := ((IZR h - 6) / 24 * PI * 2)%R.

(** An upper bound of the sine at each local hour. *)
Definition sin_ub (h : Z) : R :=
  match h with
  | 14%Z => 0.875%R
  | 15%Z => 0.72%R
  | 16%Z => 0.5%R
  | 17%Z => 0.287%R
  | 18%Z => 0%R
  | 19%Z => (- 0.25)%R
  | 20%Z | 21%Z | 22%Z => (- 0.5)%R
  | 23%Z => (- 0.85)%R
  | _ => 1%R
  end.

(** Milliseconds passed since the start of the day, as source line 76
    computes them, and the local time of day in milliseconds. *)
Definition elapsed (host : TimeZone) (now : Date) : Z :=
  (getTime now - getTime (startOfDay host now))%Z.
Definition timeOfDay (now : Date) : Z := (localMs now mod 86400000)%Z.

(** A host that keeps one UTC offset, and a host on UTC. *)
Definition fixed_zone (off : Z) : TimeZone := mkTimeZone off [].
Definition utc_host : TimeZone := fixed_zone 0.

(** America/New_York through 2024: UTC-5, UTC-4 from 2024-03-10T07:00:00Z
    (02:00 local becomes 03:00), UTC-5 again from 2024-11-03T06:00:00Z
    (02:00 local becomes 01:00). *)
Definition new_york_2024 : TimeZone :=
  mkTimeZone (-18000000)
    [(1710054000000, -14400000); (1730613600000, -18000000)]%Z.

(** Pacific/Kwajalein around 1969-10-01: UTC+11 until 1969-09-30T13:00:00Z
    (midnight local), UTC-12 from then on, so that the local day 1969-09-30
    lasts 47 hours. *)
Definition kwajalein_1969 : TimeZone :=
  mkTimeZone 39600000 [(-7988400000, -43200000)]%Z.

(** 16:00:00, 16:30:00 and 18:00:00 local time on the epoch day, UTC host;
    09:00:00 and 11:30:00 of the same day. *)
Definition four_pm : Date := mkDate 57600000 0.
Definition half_past_four : Date := mkDate 59400000 0.
Definition six_pm : Date := mkDate 64800000 0.
Definition nine_am : Date := mkDate 32400000 0.
Definition half_past_eleven : Date := mkDate 41400000 0.

(** 2024-11-03T21:59:59.999Z on a New York host: 16:59:59.999 local on the
    day the clock is set back an hour. *)
Definition fall_back_afternoon : Date := Date_at new_york_2024 1730671199999.

(** 1969-10-01T00:00:00Z on a Kwajalein host: the second 12:00:00 local of
    1969-09-30, 35 hours after that day's midnight. *)
Definition kwajalein_noon : Date := Date_at kwajalein_1969 (-7948800000).



(** A snapshot with valid data in every field (what the spec's sample
    payload yields). *)
Definition known_weather : WeatherData :=
  mkWeather (Some 18.4) (Some 3)
            (Some (NewDate (JStr "2024-06-01T04:45:00Z")))
            (Some (NewDate (JStr "2024-06-01T20:15:00Z"))).



(** The spec's sample payload. *)
Definition sample_payload : json :=
  JObj {[ "current" := JObj {[ "temperature_2m" := JNum 18.4;
                               "weather_code" := JNum 3 ]};
          "daily" := JObj {[ "sunrise" := JArr [JStr "2024-06-01T04:45:00Z"];
                             "sunset" := JArr [JStr "2024-06-01T20:15:00Z"] ]} ]}.

(** The times of the clock ticks among the events. *)
Fixpoint tick_times (es : list Event) : list Z :=
  match es with
  | [] => []
  | Tick t :: es' => t :: tick_times es'
  | _ :: es' => tick_times es'
  end.

(** Effect runs still waiting for a geolocation callback. *)
Fixpoint pending (rs : list EffectRun) : nat :=
  match rs with
  | [] => O
  | mkRun _ Locating :: rs' => S (pending rs')
  | _ :: rs' => pending rs'
  end.

Definition fallback_request (t : Z) : Request :=
  mkRequest t fallback_lat fallback_lon.

(** What holds of the hook after every event. *)
Record hook_inv (h : Hook) : Prop := {
  inv_deps : now_ref h = deps_ref h;
  inv_run_now : length (run_now h) = length (runs h);
  inv_requests : (length (requests h) + pending (runs h))%nat = length (runs h)
}.

(** Without a geolocation capability no run ever waits for a position, and
    the requests are the fallback requests of the effect runs, in order. *)
Definition fallback_inv (h : Hook) : Prop :=
  pending (runs h) = O /\ requests h = map fallback_request (run_now h).

(** 2024-01-01T00:00:00Z in epoch milliseconds, and UTC+9 in milliseconds. *)
Definition new_year_2024 : Z := 1704067200000.
Definition utc_plus_9 : Z := 32400000.


(** The wall-clock time lies in the years 1000 to 9999: from
    1000-01-01T00:00:00.000 up to 9999-12-31T23:59:59.999. *)
Definition four_digit_year (wall : Z) : Prop :=
  (-30610224000000 <= wall < 253402300800000)%Z.

(** The character of a decimal digit, and the zero-padded two- and
    four-digit numerals. *)
Definition digit_char (d : Z) : ascii := ascii_of_nat (48 + Z.to_nat d).

Definition two_digits (n : Z) : string :=
  String (digit_char (n / 10)) (String (digit_char (n mod 10)) EmptyString).

Definition four_digits (y : Z) : string :=
  String (digit_char (y / 1000))
    (String (digit_char (y / 100 mod 10))
       (String (digit_char (y / 10 mod 10))
          (String (digit_char (y mod 10)) EmptyString))).

(** [P] holds of the [n] integers from [z] on. *)
Fixpoint all_from (P : Z -> bool) (z : Z) (n : nat) : bool :=
  match n with
  | O => true
  | S k => P z && all_from P (z + 1) k
  end.

Definition mid_june_2024 : Z := 1718454896000.

(** The offsets of three zones of the selector that keep one offset all
    year: UTC, Asia/Tokyo (UTC+9) and Asia/Dubai (UTC+4). *)
Definition sample_tzdata (tz : string) (now : Z) : Z :=
  if String.eqb tz "Asia/Tokyo" then 32400000%Z
  else if String.eqb tz "Asia/Dubai" then 14400000%Z
  else 0%Z.


(** The host's clock shows the local time [l] at the instant the [Date]
    constructor takes it for: [l] is not a local time the host skips at a
    forward change of its UTC offset. *)
Definition host_shows (host : TimeZone) (l : Z) : Prop :=
  localMs (Date_of_local host l) = l.


(* ===================================================================== *)
(** ** The initial battery computation in binary64 arithmetic *)
(* ===================================================================== *)

(** The arithmetic of source lines 48-51 on IEEE 754 binary64 numbers, to
    cross-check the exact model on the scenarios below. *)
Module Binary64.
Import PrimFloat.
Local Open Scope float_scope.

(** [Math.max] on numbers that are not NaN. *)
Definition Math_max (a b : float) : float := if a <? b then b else a.

(** [Math.round] for magnitudes below 2^51: adding and subtracting 2^52
    rounds to the nearest integer, ties to even; a tie that went down is
    moved up. *)
Definition Math_round (x : float) : float :=
  let n := (x + 0x1p52) - 0x1p52 in
  if (x - n) =? 0.5 then n + 1 else n.

(** The binary64 numbers nearest to 0.04 and to 77.6. *)
Definition literal_0_04 : float := 0x1.47ae147ae147bp-5.
Definition literal_77_6 : float := 0x1.3666666666666p+6.

(** [baseline] is [parseFloat(stored)], [elapsedMs] is [Date.now() - last]. *)
Definition battery_init (baseline elapsedMs : float) : float :=
  let minutesSince := elapsedMs / 60000 in
  let drained := Math_max 0 (baseline - minutesSince * 0.04) in
  Math_round (drained * 10) / 10.

(** [Math.min], [clamp] and the per-tick update of source line 58 on
    numbers that are not NaN. *)
Definition Math_min (a b : float) : float := if a <? b then a else b.
Definition clamp (value min max : float) : float := Math_min max (Math_max min value).
Definition battery_next (b : float) : float := clamp (b - 0.0007) 0 100.
End Binary64.

(* ===================================================================== *)
(** ** Heart-rate simulator: [useSimulatedHeartRate] *)
(* ===================================================================== *)

(** The initial state of [useState<number>(72)]. *)
Definition heartRate_initial : Q := 72.

(** The state updater of the 1500 ms interval (source line 86); [random] is
    the value of [Math.random()]. *)
Definition heartRate_next (prev random : Q) : Q :=
  clamp (inject_Z (Math_round (prev + (random - 0.5) * 4))) 58 140.

(** The heart rate after the interval callbacks that drew [randoms], oldest
    first. *)
Definition useSimulatedHeartRate (randoms : list Q) : Q :=
  fold_left heartRate_next randoms heartRate_initial.

(* ===================================================================== *)
(** ** Reset button and second-timezone selector of [src/app/page.tsx] *)
(* ===================================================================== *)

(** The [onClick] of the reset button: the two [removeItem] calls (the
    reload that follows re-runs the initial-state computations). *)
Definition resetBattery {V : Type} (localStorage : gmap string V) : gmap string V :=
  delete key_batteryUpdatedAt (delete key_batteryPercent localStorage).

Definition key_secondTz : string := "secondTz".

(** The selector's options. *)
Definition timezones : list string :=
  [ "UTC"; "America/New_York"; "America/Los_Angeles"; "Europe/London";
    "Europe/Paris"; "Europe/Berlin"; "Asia/Dubai"; "Asia/Tokyo";
    "Australia/Sydney" ]%string.

(** The initial state of [secondTimezone] (page.tsx lines 7-11); the store
    holds strings here, and the empty string is falsy. *)
Definition initialSecondTimezone
    (window : bool) (localStorage : gmap string string) : string :=
  match (if window then localStorage !! key_secondTz else None) with
  | Some s => if String.eqb s "" then "UTC" else s
  | None => "UTC"
  end%string.

(** The selector's [onChange] with value [v]: the new state and store. *)
Definition selectTimezone
    (window : bool) (v : string) (localStorage : gmap string string)
    : string * gmap string string :=
  (v, if window then <[key_secondTz := v]> localStorage else localStorage).

(* ===================================================================== *)
(** ** Geometry: [toRadians], [polarToCartesian] and what is drawn with them *)
(* ===================================================================== *)

Definition toRadians (deg : R) : R := (deg * PI / 180)%R.

Record Point := mkPoint { x : R; y : R }.

Definition polarToCartesian (cx cy r angleDeg : R) : Point :=
  let a := toRadians (angleDeg - 90) in
  {| x := cx + r * cos a; y := cy + r * sin a |}.

(** [center] and [radius] of the component, from its [diameterPx]. *)
Definition center (size : R) : R := (size / 2)%R.
Definition radius (size : R) : R := (size * 0.46)%R.

(** The sub-dial radius and the four sub-dial positions, under the names
    the source gives them. *)
Definition subR (size : R) : R := (radius size * 0.32)%R.
Definition posTop (size : R) : Point :=
  polarToCartesian (center size) (center size) (radius size * 0.55) (-90).
Definition posLeft (size : R) : Point :=
  polarToCartesian (center size) (center size) (radius size * 0.55) (-180).
Definition posRight (size : R) : Point :=
  polarToCartesian (center size) (center size) (radius size * 0.55) 0.
Definition posBottom (size : R) : Point :=
  polarToCartesian (center size) (center size) (radius size * 0.55) 90.

(** What [arcPath] interpolates into its path string
    [M start.x start.y A r r 0 largeArc 0 end.x end.y]. *)
Record ArcPath := mkArc {
  arc_start : Point; arc_r : R; largeArc : Z; arc_end : Point
}.

Definition arcPath (size startAngle endAngle r : R) : ArcPath :=
  let start := polarToCartesian (center size) (center size) r endAngle in
  let end_ := polarToCartesian (center size) (center size) r startAngle in
  let largeArc := if Rle_dec (endAngle - startAngle) 180 then 0%Z else 1%Z in
  mkArc start r largeArc end_.

(** The progress arcs of the battery, steps and heart-rate sub-dials. *)
Definition batteryArc (size battery : R) : ArcPath :=
  arcPath size 0 (clampR battery 0 100 / 100 * 360) (subR size - 6).
Definition stepsArc (size steps : R) : ArcPath :=
  arcPath size 0 (steps / 10000 * 360) (subR size - 6).
Definition heartRateArc (size heartRate : R) : ArcPath :=
  arcPath size 0 (clampR ((heartRate - 50) / 100) 0 1 * 360) (subR size - 6).

(** One pass of the [tickMarks] loop, for index [i]. *)
Record TickMark := mkTick {
  isHour : bool; len : R; width : R; angle : Z; outer : Point; inner : Point
}.

Definition tickMark (size : R) (i : Z) : TickMark :=
  let isHour := (i mod 5 =? 0)%Z in
  let len := (if isHour then radius size * 0.12 else radius size * 0.06)%R in
  let width := (if isHour then 3 else 1.5)%R in
  let angle := (i * 6)%Z in
  let outer := polarToCartesian (center size) (center size) (radius size) (IZR angle) in
  let inner := polarToCartesian (center size) (center size) (radius size - len) (IZR angle) in
  mkTick isHour len width angle outer inner.

(** [for (let i = 0; i < 60; i++)]. *)
Definition tickMarks (size : R) : list TickMark :=
  map (fun i => tickMark size (Z.of_nat i)) (seq 0 60).

(** The angle of the hour numeral [n] ([n = i + 1] for [i] in 0..11). *)
Definition numeralAngle (n : Z) : Z := (n * 30)%Z.

(** The temperature text of the weather badge (the degree sign as the
    source file spells it). *)
Definition temperatureText (temperatureC : option Q) : string :=
  match temperatureC with
  | Some t => (toString (Math_round t) ++ "?C")%string
  | None => "--"%string
  end.

(** All runs of the effect but the latest have been cleaned up. *)
Definition stale_cancelled (rs : list EffectRun) : Prop :=
  forall (i : nat) (r : EffectRun),
    rs !! i = Some r -> (S i < length rs)%nat -> cancelled r = true.

(** Squared distance of two points. *)
Definition dist2 (p q : Point) : R :=
  ((x p - x q) * (x p - x q) + (y p - y q) * (y p - y q))%R.

(* ===================================================================== *)
(** ** Facts about the numeric helpers *)
(* ===================================================================== *)

Lemma clamp_lower (v lo hi : Q) : (lo <= hi)%Q -> (lo <= clamp v lo hi)%Q.
Proof.
  intros Hlh. unfold clamp, Math_min, Math_max.
  apply Q.min_glb; [exact Hlh | apply Q.le_max_l].
Qed.

Lemma clamp_upper (v lo hi : Q) : (clamp v lo hi <= hi)%Q.
Proof. unfold clamp, Math_min. apply Q.le_min_l. Qed.

Lemma clamp_le_value (v lo hi : Q) : (lo <= v)%Q -> (clamp v lo hi <= v)%Q.
Proof.
  intros Hv. unfold clamp, Math_min, Math_max.
  rewrite (Q.max_r lo v Hv). apply Q.le_min_r.
Qed.

Lemma Math_round_mono (x y : Q) : (x <= y)%Q -> (Math_round x <= Math_round y)%Z.
Proof.
  intros Hxy. unfold Math_round. apply Qfloor_resp_le. lra.
Qed.

Lemma Math_round_inject (z : Z) : Math_round (inject_Z z) = z.
Proof.
  unfold Math_round.
  assert (Hlo : (z <= Qfloor (inject_Z z + (1 # 2)))%Z).
  { rewrite <- (Qfloor_Z z) at 1. apply Qfloor_resp_le. lra. }
  assert (Hhi : (Qfloor (inject_Z z + (1 # 2)) < z + 1)%Z).
  { rewrite Zlt_Qlt. rewrite inject_Z_plus.
    pose proof (Qfloor_le (inject_Z z + (1 # 2))) as Hf.
    change (inject_Z 1) with 1%Q. lra. }
  lia.
Qed.

Lemma Math_round_nonneg (x : Q) : 0 <= x -> (0 <= Math_round x)%Z.
Proof.
  intros Hx. rewrite <- (Math_round_inject 0). apply Math_round_mono. exact Hx.
Qed.

Lemma parseInt_inject (z : Z) : parseInt (inject_Z z) = z.
Proof. unfold parseInt. simpl. apply Z.quot_1_r. Qed.

(** Rounding to one decimal, [Math.round(x * 10) / 10], keeps [0, 100]. *)
Lemma round_tenth_nonneg (x : Q) :
  0 <= x -> 0 <= inject_Z (Math_round (x * 10)) / 10.
Proof.
  intros Hx.
  assert (Hr : (0 <= Math_round (x * 10))%Z) by (apply Math_round_nonneg; lra).
  rewrite Zle_Qle in Hr. change (inject_Z 0) with 0 in Hr.
  apply Qle_shift_div_l; lra.
Qed.

Lemma round_tenth_le_100 (x : Q) :
  x <= 100 -> inject_Z (Math_round (x * 10)) / 10 <= 100.
Proof.
  intros Hx.
  assert (Hr : (Math_round (x * 10) <= 1000)%Z).
  { rewrite <- (Math_round_inject 1000). apply Math_round_mono.
    change (inject_Z 1000) with 1000. lra. }
  rewrite Zle_Qle in Hr. change (inject_Z 1000) with 1000 in Hr.
  apply Qle_shift_div_r; lra.
Qed.

(* ===================================================================== *)
(** ** Battery simulator: bounds and monotonicity *)
(* ===================================================================== *)

Lemma battery_next_bounds (b : Q) : 0 <= battery_next b <= 100.
Proof.
  unfold battery_next. split; [apply clamp_lower; lra | apply clamp_upper].
Qed.

Lemma battery_next_le (b : Q) : 0 <= b -> battery_next b <= b.
Proof.
  intros Hb. unfold battery_next, clamp, Math_min, Math_max.
  apply Qle_trans with (Qmax 0 (b - 0.0007)); [apply Q.le_min_r |].
  apply Q.max_lub; lra.
Qed.

Lemma init_nonneg (window : bool) (ls : Storage) (random : Q) (t0 t1 : Z) :
  0 <= useSimulatedBattery_init window ls random t0 t1.
Proof.
  unfold useSimulatedBattery_init. destruct window; simpl; [| lra].
  apply round_tenth_nonneg. unfold Math_max. apply Q.le_max_l.
Qed.

Lemma init_le_100 (window : bool) (ls : Storage) (random : Q) (t0 t1 : Z) :
  baseline_le_100 ls random -> elapsed_nonneg ls t0 t1 ->
  useSimulatedBattery_init window ls random t0 t1 <= 100.
Proof.
  unfold baseline_le_100, elapsed_nonneg, useSimulatedBattery_init.
  intros Hbase Hlast. destruct window; simpl; [| lra].
  apply round_tenth_le_100. unfold Math_max. apply Q.max_lub; [lra |].
  set (last := match ls !! key_batteryUpdatedAt with
               | Some u => parseInt u | None => t0 end) in *.
  assert (Hel : 0 <= inject_Z (t1 - last) / 60000).
  { assert (Hz : (0 <= t1 - last)%Z) by (subst last; destruct (ls !! key_batteryUpdatedAt); lia).
    rewrite Zle_Qle in Hz. change (inject_Z 0) with 0 in Hz.
    apply Qle_shift_div_l; lra. }
  assert (Hb : match ls !! key_batteryPercent with
               | Some s => s
               | None => inject_Z (Math_round (60 + random * 40))
               end <= 100).
  { destruct (ls !! key_batteryPercent) as [s|]; [exact Hbase |].
    assert (Hr : (Math_round (60 + random * 40) <= 100)%Z).
    { rewrite <- (Math_round_inject 100). apply Math_round_mono.
      change (inject_Z 100) with 100. lra. }
    rewrite Zle_Qle in Hr. exact Hr. }
  lra.
Qed.

Lemma battery_after_nonneg (n : nat) (b : Q) : 0 <= b -> 0 <= battery_after n b.
Proof.
  intros Hb. destruct n as [|k]; simpl; [exact Hb | apply battery_next_bounds].
Qed.

Lemma battery_session_value (ticks : list Z) (st : Q * Storage) :
  fst (battery_session ticks st) = battery_after (length ticks) (fst st).
Proof.
  unfold battery_session. revert st.
  induction ticks as [|t ticks IH] using rev_ind; intros st; [reflexivity |].
  rewrite fold_left_app, length_app, Nat.add_comm. simpl.
  rewrite <- IH.
  destruct (fold_left _ ticks st) as [b ls]. reflexivity.
Qed.

(** What a session leaves in storage: the value it shows and the time of
    its last callback. *)
Lemma battery_session_storage (ticks : list Z) (t : Z) (st : Q * Storage) :
  let st' := battery_session (ticks ++ [t]) st in
  snd st' !! key_batteryPercent = Some (fst st') /\
  snd st' !! key_batteryUpdatedAt = Some (inject_Z t).
Proof.
  unfold battery_session. rewrite fold_left_app. simpl.
  destruct (fold_left _ ticks st) as [b ls]. simpl. split.
  - rewrite lookup_insert_ne by (vm_compute; discriminate).
    apply lookup_insert_eq.
  - apply lookup_insert_eq.
Qed.

(** A reload after a session, with a clock that has not gone back, starts
    within [0, 100]. *)
Lemma reload_after_session_bounds
    (window : bool) (ticks : list Z) (t : Z) (st : Q * Storage)
    (random : Q) (t0 t1 : Z) :
  (t <= t1)%Z ->
  let ls := snd (battery_session (ticks ++ [t]) st) in
  0 <= useSimulatedBattery_init window ls random t0 t1 <= 100.
Proof.
  intros Ht ls. split; [apply init_nonneg |].
  destruct (battery_session_storage ticks t st) as [Hp Hu]. fold ls in Hp, Hu.
  apply init_le_100.
  - unfold baseline_le_100. rewrite Hp.
    unfold battery_session. rewrite fold_left_app. simpl.
    destruct (fold_left _ ticks st) as [b ls0]. simpl. apply battery_next_bounds.
  - unfold elapsed_nonneg. rewrite Hu, parseInt_inject. exact Ht.
Qed.

(** C2, the code at a failing input: with a persisted baseline of 100 and a
    stored timestamp 1000 minutes ahead of the current time (negative
    elapsed minutes), the initial linear-decay computation yields 140,
    which is not in [0, 100]: it floors at 0 and has no upper clamp. *)
Lemma battery_init_exceeds_100 :
  storage_ahead !! key_batteryPercent = Some 100 /\
  useSimulatedBattery_init true storage_ahead 0 0 0 == 140 /\
  ~ (0 <= useSimulatedBattery_init true storage_ahead 0 0 0 <= 100).
Proof.
  split; [reflexivity |]. split; [vm_compute; reflexivity |].
  intros [_ H]. vm_compute in H. apply H. reflexivity.
Qed.

(** What does hold of the battery value: for every persisted baseline,
    timestamp and clock reading, the initial value is at least 0; it is at
    most 100 when the baseline is at most 100 and the clock has not gone
    back since the stored timestamp; and the value after every per-tick
    decay step lies in [0, 100], whatever the value before. *)
Theorem battery_bounds
    (window : bool) (ls : Storage) (random : Q) (t0 t1 : Z) :
  0 <= useSimulatedBattery_init window ls random t0 t1 /\
  (baseline_le_100 ls random -> elapsed_nonneg ls t0 t1 ->
   useSimulatedBattery_init window ls random t0 t1 <= 100) /\
  (forall b : Q, 0 <= battery_next b <= 100) /\
  (forall (ticks : list Z) (t : Z) (ls' : Storage),
     let st := battery_session (ticks ++ [t])
                 (useSimulatedBattery_init window ls random t0 t1, ls') in
     0 <= fst st <= 100).
Proof.
  split; [apply init_nonneg |].
  split; [apply init_le_100 |].
  split; [apply battery_next_bounds |].
  intros ticks t ls' st. subst st.
  rewrite battery_session_value, length_app, Nat.add_comm. simpl.
  apply battery_next_bounds.
Qed.

Lemma battery_bounds_witness :
  baseline_le_100 storage_ahead 0 /\ elapsed_nonneg storage_ahead 0 60000000 /\
  useSimulatedBattery_init true storage_ahead 0 0 60000000 <= 100.
Proof.
  assert (H1 : baseline_le_100 storage_ahead 0).
  { vm_compute. discriminate. }
  assert (H2 : elapsed_nonneg storage_ahead 0 60000000).
  { vm_compute. discriminate. }
  split; [exact H1 |]. split; [exact H2 |].
  exact (proj1 (proj2 (battery_bounds true storage_ahead 0 0 60000000)) H1 H2).
Defined.

(** C8: with a persisted baseline of 80 at timestamp [T] and the current
    time [T] plus 60 minutes, the initial battery value is
    80 - 60 * 0.04 = 77.6, which lies within [0, 100]. *)
Theorem battery_scenario_77_6 (ls : Storage) (T : Z) (random : Q) (t0 : Z) :
  ls !! key_batteryPercent = Some 80 ->
  ls !! key_batteryUpdatedAt = Some (inject_Z T) ->
  let b0 := useSimulatedBattery_init true ls random t0 (T + 3600000) in
  b0 == 80 - 60 * 0.04 /\ b0 == 77.6 /\ 0 <= b0 <= 100.
Proof.
  intros Hp Hu b0.
  assert (Hb : b0 = 77.6).
  { subst b0. unfold useSimulatedBattery_init. simpl negb. cbv iota.
    rewrite Hp, Hu, parseInt_inject.
    replace (T + 3600000 - T)%Z with 3600000%Z by lia.
    vm_compute. reflexivity. }
  rewrite Hb. repeat split; vm_compute; discriminate || reflexivity.
Qed.

Lemma battery_scenario_77_6_witness :
  useSimulatedBattery_init true
    (<[key_batteryPercent := 80]> (<[key_batteryUpdatedAt := inject_Z 1000]> ∅))
    0 0 (1000 + 3600000) == 77.6.
Proof.
  refine (proj1 (proj2 (battery_scenario_77_6
            (<[key_batteryPercent := 80]> (<[key_batteryUpdatedAt := inject_Z 1000]> ∅))
            1000 0 0 _ _))); reflexivity.
Defined.

Section Binary64Check.
Import PrimFloat.
Local Open Scope float_scope.

(** The same scenario in binary64 arithmetic: 3600000 ms elapsed from a
    baseline of 80 gives the binary64 number nearest to 77.6; and a
    baseline of 100 with the clock 60000000 ms behind the stored timestamp
    gives 140. *)
Example battery_scenario_binary64 :
  Binary64.literal_0_04 = 0.04 /\
  Binary64.literal_77_6 = 77.6 /\
  Binary64.battery_init 80 3600000 = Binary64.literal_77_6 /\
  Binary64.battery_init 100 (-60000000) = 140.
Proof. repeat split; vm_compute; reflexivity. Qed.

End Binary64Check.

(** C10: within a running session the battery value never increases: every
    per-tick update maps a value [b] in [0, 100] to
    [clamp (b - 0.0007) 0 100], which is at most [b], and from the initial
    value on, the value after one more tick is at most the value before. *)
Theorem battery_never_increases
    (window : bool) (ls : Storage) (random : Q) (t0 t1 : Z) :
  (forall b : Q, 0 <= b <= 100 ->
     battery_next b = clamp (b - 0.0007) 0 100 /\ battery_next b <= b) /\
  (forall n : nat,
     let b0 := useSimulatedBattery_init window ls random t0 t1 in
     battery_after (S n) b0 <= battery_after n b0).
Proof.
  split.
  - intros b [Hb _]. split; [reflexivity | apply battery_next_le; exact Hb].
  - intros n b0. simpl. apply battery_next_le, battery_after_nonneg, init_nonneg.
Qed.

Lemma battery_never_increases_witness :
  0 <= 50 <= 100 /\ battery_next 50 <= 50.
Proof.
  assert (H : 0 <= 50 <= 100) by (split; vm_compute; discriminate).
  split; [exact H |].
  exact (proj2 (proj1 (battery_never_increases true ∅ 0 0 0) 50 H)).
Defined.

(* ===================================================================== *)
(** ** Calendar fields and hand angles *)
(* ===================================================================== *)

Lemma getHours_range (d : Date) : (0 <= getHours d <= 23)%Z.
Proof. unfold getHours. pose proof (Z.mod_pos_bound (localMs d / 3600000) 24). lia. Qed.

Lemma getMinutes_range (d : Date) : (0 <= getMinutes d <= 59)%Z.
Proof. unfold getMinutes. pose proof (Z.mod_pos_bound (localMs d / 60000) 60). lia. Qed.

Lemma getSeconds_range (d : Date) : (0 <= getSeconds d <= 59)%Z.
Proof. unfold getSeconds. pose proof (Z.mod_pos_bound (localMs d / 1000) 60). lia. Qed.

Lemma inject_Z_range (z lo hi : Z) :
  (lo <= z <= hi)%Z -> inject_Z lo <= inject_Z z <= inject_Z hi.
Proof. intros [H1 H2]. split; rewrite <- Zle_Qle; assumption. Qed.

(** C5: for every instant, [handAngle] returns the hour-hand angle
    (hour mod 12 + minute/60) * 30, the minute-hand angle
    (minute + second/60) * 6 and the second-hand angle second * 6, each in
    [0, 360); at 00:00:00 all three are 0 and at 06:00:00 the hour-hand
    angle is 180. *)
Theorem handAngle_spec (now : Date) :
  let a := handAngle now in
  (hour a == (inject_Z (getHours now mod 12) + inject_Z (getMinutes now) / 60) * 30 /\
   minute a == (inject_Z (getMinutes now) + inject_Z (getSeconds now) / 60) * 6 /\
   second a == inject_Z (getSeconds now) * 6) /\
  (0 <= hour a < 360 /\ 0 <= minute a < 360 /\ 0 <= second a < 360) /\
  (getHours now = 0%Z -> getMinutes now = 0%Z -> getSeconds now = 0%Z ->
   hour a == 0 /\ minute a == 0 /\ second a == 0) /\
  (getHours now = 6%Z -> getMinutes now = 0%Z -> getSeconds now = 0%Z ->
   hour a == 180).
Proof.
  intros a. subst a. unfold handAngle. cbn [hour minute second].
  split; [repeat split; reflexivity |].
  split.
  - assert (Hh : (0 <= getHours now mod 12 <= 11)%Z).
    { pose proof (Z.mod_pos_bound (getHours now) 12). lia. }
    apply inject_Z_range in Hh.
    pose proof (inject_Z_range _ _ _ (getMinutes_range now)) as Hm.
    pose proof (inject_Z_range _ _ _ (getSeconds_range now)) as Hs.
    change (inject_Z 0) with 0 in *. change (inject_Z 11) with 11 in *.
    change (inject_Z 59) with 59 in *.
    unfold Qdiv. change (/ 60) with (1 # 60).
    repeat split; lra.
  - split.
    + intros -> -> ->. repeat split; vm_compute; reflexivity.
    + intros -> -> _. vm_compute. reflexivity.
Qed.

(** 00:00:00 and 06:00:00 local time on the epoch day, UTC host. *)
Lemma handAngle_spec_witness :
  (hour (handAngle (mkDate 0 0)) == 0 /\ minute (handAngle (mkDate 0 0)) == 0 /\
   second (handAngle (mkDate 0 0)) == 0) /\
  hour (handAngle (mkDate 21600000 0)) == 180.
Proof.
  split.
  - exact (proj1 (proj2 (proj2 (handAngle_spec (mkDate 0 0))))
             eq_refl eq_refl eq_refl).
  - exact (proj2 (proj2 (proj2 (handAngle_spec (mkDate 21600000 0))))
             eq_refl eq_refl eq_refl).
Defined.

(* ===================================================================== *)
(** ** Weather icon *)
(* ===================================================================== *)

Lemma includes_app (l1 l2 : list Q) (x : Q) :
  includes (l1 ++ l2) x = includes l1 x || includes l2 x.
Proof. unfold includes. apply existsb_app. Qed.

(** C6: [mapWeatherCodeToIcon] is total: for every integer weather code,
    listed or not, and for the null code, it returns a defined, non-empty
    icon string (one of the glyphs of the source); a code outside every
    listed set, and the null code, get the default glyph. *)
Theorem mapWeatherCodeToIcon_total :
  (forall code : option Q,
     In (mapWeatherCodeToIcon code) icons /\
     mapWeatherCodeToIcon code <> ""%string) /\
  (forall z : Z,
     In (mapWeatherCodeToIcon (Some (inject_Z z))) icons) /\
  (forall q : Q,
     includes listed_codes q = false -> mapWeatherCodeToIcon (Some q) = "?"%string) /\
  mapWeatherCodeToIcon None = "?"%string.
Proof.
  assert (Hall : forall code : option Q,
            In (mapWeatherCodeToIcon code) icons /\
            mapWeatherCodeToIcon code <> ""%string).
  { intros [q|]; unfold mapWeatherCodeToIcon, icons;
      repeat match goal with
             | |- context [if ?b then _ else _] => destruct b
             end;
      (split; [simpl; tauto | discriminate]). }
  split; [exact Hall |].
  split; [intros z; apply Hall |].
  split; [| reflexivity].
  intros q Hq. unfold listed_codes in Hq.
  repeat (rewrite includes_app in Hq; apply orb_false_elim in Hq;
          destruct Hq as [? Hq]).
  unfold mapWeatherCodeToIcon.
  repeat match goal with
         | H : includes ?l q = false |- context [includes ?l q] => rewrite H
         end.
  reflexivity.
Qed.

Lemma mapWeatherCodeToIcon_total_witness :
  mapWeatherCodeToIcon (Some 1000) = "?"%string.
Proof.
  exact (proj1 (proj2 (proj2 mapWeatherCodeToIcon_total)) 1000 eq_refl).
Defined.

(* ===================================================================== *)
(** ** Steps simulator *)
(* ===================================================================== *)

Section StepsFacts.
Local Open Scope R_scope.

Ltac hour_cases h H :=
  let Hc := fresh "Hc" in
  assert (Hc : (h = 0 \/ h = 1 \/ h = 2 \/ h = 3 \/ h = 4 \/ h = 5 \/ h = 6
                \/ h = 7 \/ h = 8 \/ h = 9 \/ h = 10 \/ h = 11 \/ h = 12
                \/ h = 13 \/ h = 14 \/ h = 15 \/ h = 16 \/ h = 17 \/ h = 18
                \/ h = 19 \/ h = 20 \/ h = 21 \/ h = 22 \/ h = 23)%Z) by lia;
  clear H;
  repeat (destruct Hc as [Hc | Hc]; [subst h | ]); [.. | subst h].

Lemma sqrt3_bounds : 1.7 <= sqrt 3 <= 1.75.
Proof.
  pose proof (sqrt_pos 3) as Hp.
  assert (Hs : sqrt 3 * sqrt 3 = 3) by (apply sqrt_sqrt; lra).
  split; nra.
Qed.

Lemma inv_sqrt2_bounds : 0.7 <= 1 / sqrt 2 <= 0.72.
Proof.
  pose proof (sqrt_lt_R0 2 ltac:(lra)) as Hp.
  assert (Hs : sqrt 2 * sqrt 2 = 2) by (apply sqrt_sqrt; lra).
  assert (Hr : 0 < 1 / sqrt 2) by (apply Rdiv_lt_0_compat; lra).
  assert (Hq : (1 / sqrt 2) * (1 / sqrt 2) = 1 / 2).
  { field_simplify_eq; [| lra]. lra. }
  split; nra.
Qed.

Lemma sin_PI12_bounds : 0.25 <= sin (PI / 12) <= 0.287.
Proof.
  pose proof PI_RGT_0 as Hpi. pose proof PI_4 as Hpi4.
  assert (H0 : 0 <= sin (PI / 12)) by (apply sin_ge_0; lra).
  assert (Hc : cos (PI / 6) = 1 - 2 * sin (PI / 12) * sin (PI / 12)).
  { rewrite <- cos_2a_sin. f_equal. lra. }
  rewrite cos_PI6 in Hc. pose proof sqrt3_bounds as H3.
  split; nra.
Qed.

Lemma sin_hour_range (h : Z) : -1 <= sin (hour_angle h) <= 1.
Proof. apply SIN_bound. Qed.

Lemma sin_hour_upper (h : Z) :
  (0 <= h <= 23)%Z -> sin (hour_angle h) <= sin_ub h.
Proof.
  intros Hh. pose proof PI_RGT_0 as Hpi.
  pose proof sin_PI12_bounds as H12. pose proof inv_sqrt2_bounds as H2.
  pose proof sqrt3_bounds as H3.
  hour_cases h Hh; unfold hour_angle, sin_ub;
    try (apply (proj2 (SIN_bound _))).
  - (* 14:00, 2 pi / 3 *)
    replace ((14 - 6) / 24 * PI * 2) with (PI - PI / 3) by lra.
    rewrite sin_PI_x, sin_PI3. lra.
  - (* 15:00, 3 pi / 4 *)
    replace ((15 - 6) / 24 * PI * 2) with (3 * (PI / 4)) by lra.
    rewrite sin_3PI4. lra.
  - (* 16:00, 5 pi / 6 *)
    replace ((16 - 6) / 24 * PI * 2) with (PI - PI / 6) by lra.
    rewrite sin_PI_x, sin_PI6. lra.
  - (* 17:00, 11 pi / 12 *)
    replace ((17 - 6) / 24 * PI * 2) with (PI - PI / 12) by lra.
    rewrite sin_PI_x. lra.
  - (* 18:00, pi *)
    replace ((18 - 6) / 24 * PI * 2) with PI by lra.
    rewrite sin_PI. lra.
  - (* 19:00, 13 pi / 12 *)
    replace ((19 - 6) / 24 * PI * 2) with (PI / 12 + PI) by lra.
    rewrite neg_sin. lra.
  - (* 20:00, 7 pi / 6 *)
    replace ((20 - 6) / 24 * PI * 2) with (PI / 6 + PI) by lra.
    rewrite neg_sin, sin_PI6. lra.
  - (* 21:00, 5 pi / 4 *)
    replace ((21 - 6) / 24 * PI * 2) with (5 * (PI / 4)) by lra.
    rewrite sin_5PI4. lra.
  - (* 22:00, 4 pi / 3 *)
    replace ((22 - 6) / 24 * PI * 2) with (PI / 3 + PI) by lra.
    rewrite neg_sin, sin_PI3. lra.
  - (* 23:00, 17 pi / 12: below the value at 4 pi / 3 *)
    apply Rle_trans with (sin (PI / 3 + PI)).
    + apply sin_decr_1; lra.
    + rewrite neg_sin, sin_PI3. lra.
Qed.

(** The weighted day fraction stays below 391/480 (about 0.8146) in every
    hour: [p] is the day fraction, below (h+1)/24 during hour [h]. *)
Lemma weight_bound (h : Z) (p s : R) :
  (0 <= h <= 23)%Z ->
  0 <= p < (IZR h + 1) / 24 ->
  -1 <= s <= sin_ub h ->
  p * (0.7 + 0.6 * (0.5 + 0.5 * s)) < 391 / 480.
Proof.
  intros Hh Hp Hs.
  hour_cases h Hh; unfold sin_ub in Hs; nra.
Qed.

(** The same with the day fraction up to an hour ahead of the clock: below
    (h+2)/24 during hour [h], and at most 1. *)
Lemma weight_bound_hour (h : Z) (p s : R) :
  (0 <= h <= 23)%Z ->
  0 <= p <= 1 ->
  p < (IZR h + 2) / 24 ->
  -1 <= s <= sin_ub h ->
  p * (0.7 + 0.6 * (0.5 + 0.5 * s)) < 69 / 80.
Proof.
  intros Hh Hp Hp' Hs.
  hour_cases h Hh; unfold sin_ub in Hs; nra.
Qed.

(** The same with the day fraction up to three hours ahead of the clock. *)
Lemma weight_bound_three_hours (h : Z) (p s : R) :
  (0 <= h <= 23)%Z ->
  0 <= p <= 1 ->
  p < (IZR h + 4) / 24 ->
  -1 <= s <= sin_ub h ->
  p * (0.7 + 0.6 * (0.5 + 0.5 * s)) < 97 / 100.
Proof.
  intros Hh Hp Hp' Hs.
  hour_cases h Hh; unfold sin_ub in Hs; nra.
Qed.

End StepsFacts.

Section StepsTheorems.
Local Open Scope R_scope.

Lemma clampR_id (v lo hi : R) : lo <= v <= hi -> clampR v lo hi = v.
Proof.
  intros [H1 H2]. unfold clampR.
  rewrite (Rmax_right lo v H1). apply Rmin_right. exact H2.
Qed.

Lemma clampR_mono (v w lo hi : R) : v <= w -> clampR v lo hi <= clampR w lo hi.
Proof.
  intros Hvw. unfold clampR.
  apply Rmin_glb; [apply Rmin_l |].
  apply Rle_trans with (Rmax lo v); [apply Rmin_r | apply Rle_max_compat_l, Hvw].
Qed.

Lemma clampR_range (v lo hi : R) : lo <= hi -> lo <= clampR v lo hi <= hi.
Proof.
  intros H. unfold clampR. split.
  - apply Rmin_glb; [exact H | apply Rmax_l].
  - apply Rmin_l.
Qed.

Lemma clampR_low (v lo hi : R) : lo <= hi -> v <= lo -> clampR v lo hi = lo.
Proof.
  intros H Hv. unfold clampR. rewrite Rmax_left by exact Hv. apply Rmin_right, H.
Qed.

Lemma clampR_high (v lo hi : R) : hi <= v -> clampR v lo hi = hi.
Proof.
  intros Hv. unfold clampR. apply Rmin_left.
  apply Rle_trans with v; [exact Hv | apply Rmax_r].
Qed.

Lemma Math_roundR_mono (x y : R) : x <= y -> (Math_roundR x <= Math_roundR y)%Z.
Proof. intros H. unfold Math_roundR. apply Zfloor_le. lra. Qed.

Lemma Math_roundR_eq (x : R) (z : Z) :
  IZR z - / 2 <= x < IZR z + / 2 -> Math_roundR x = z.
Proof. intros H. unfold Math_roundR. apply Zfloor_eq. lra. Qed.

(** On a host that keeps one offset, the start of the day is the local
    midnight at that offset, and the milliseconds passed since are the
    local time of day. *)
Lemma startOfDay_fixed_zone (off : Z) (now : Date) :
  startOfDay (fixed_zone off) now = mkDate (86400000 * localDay now - off)%Z off.
Proof.
  unfold startOfDay, Date_of_local, Date_at, UTC, possibleInstants, offsetAt, fixed_zone.
  cbn [initialOffset transitions instants_from offset_from].
  reflexivity.
Qed.

Lemma elapsed_fixed_zone (off : Z) (now : Date) :
  utcOffset now = off -> elapsed (fixed_zone off) now = timeOfDay now.
Proof.
  intros Ho. unfold elapsed, timeOfDay. rewrite startOfDay_fixed_zone.
  cbn [getTime]. unfold localDay. rewrite Z.mod_eq by lia.
  unfold localMs. lia.
Qed.

(** The start of the day depends on the local calendar day only. *)
Lemma startOfDay_same_day (host : TimeZone) (now1 now2 : Date) :
  localDay now1 = localDay now2 -> startOfDay host now1 = startOfDay host now2.
Proof. intros H. unfold startOfDay. rewrite H. reflexivity. Qed.

Lemma elapsed_in_hour (now : Date) :
  (3600000 * getHours now <= timeOfDay now < 3600000 * (getHours now + 1))%Z.
Proof.
  unfold getHours, timeOfDay.
  change 86400000%Z with (3600000 * 24)%Z.
  rewrite Z.rem_mul_r by lia.
  pose proof (Z.mod_pos_bound (localMs now) 3600000). lia.
Qed.

Lemma dayProgress_range (host : TimeZone) (now : Date) :
  0 <= dayProgress host now <= 1.
Proof. unfold dayProgress. apply clampR_range. lra. Qed.

Lemma dayProgress_elapsed (host : TimeZone) (now : Date) :
  dayProgress host now = clampR (IZR (elapsed host now) / 86400000) 0 1.
Proof.
  unfold dayProgress, elapsed. f_equal. f_equal. lra.
Qed.

Lemma dayProgress_of_elapsed (host : TimeZone) (now : Date) :
  (0 <= elapsed host now <= 86400000)%Z ->
  dayProgress host now = IZR (elapsed host now) / 86400000.
Proof.
  intros [H0 H1]. rewrite dayProgress_elapsed.
  apply IZR_le in H0. apply IZR_le in H1.
  apply clampR_id. lra.
Qed.

Lemma dayProgress_le (host : TimeZone) (now : Date) (k : Z) :
  (elapsed host now <= k)%Z -> (0 <= k)%Z ->
  dayProgress host now <= IZR k / 86400000.
Proof.
  intros Hk H0. rewrite dayProgress_elapsed.
  apply IZR_le in Hk. apply IZR_le in H0.
  unfold clampR.
  apply Rle_trans with (Rmax 0 (IZR (elapsed host now) / 86400000)); [apply Rmin_r |].
  apply Rmax_lub; lra.
Qed.

(** The day fraction is below (h + 1 + k) / 24 during the clock hour [h]
    when at most [k] hours more have passed since the start of the day than
    the local clock shows. *)
Lemma dayProgress_in_hour (host : TimeZone) (now : Date) (k : Z) :
  (0 <= k)%Z ->
  (elapsed host now <= timeOfDay now + k * 3600000)%Z ->
  dayProgress host now < (IZR (getHours now) + 1 + IZR k) / 24.
Proof.
  intros Hk He.
  destruct (elapsed_in_hour now) as [H0 H1].
  pose proof (getHours_range now) as Hh.
  assert (Hb : (elapsed host now <= 3600000 * (getHours now + 1 + k) - 1)%Z) by lia.
  apply Rle_lt_trans with (IZR (3600000 * (getHours now + 1 + k) - 1) / 86400000).
  - apply dayProgress_le; [exact Hb | lia].
  - rewrite minus_IZR, mult_IZR, !plus_IZR. lra.
Qed.

Lemma circadian_range (now : Date) : 0 <= circadian now <= 1.
Proof.
  unfold circadian.
  pose proof (SIN_bound ((IZR (getHours now) - 6) / 24 * PI * 2)). lra.
Qed.

(** The product of source line 78 before the multiplication by the goal,
    when the clock was not set back since the start of the day. *)
Lemma weighted_progress_bound (host : TimeZone) (now : Date) :
  (elapsed host now <= timeOfDay now)%Z ->
  0 <= dayProgress host now * (0.7 + 0.6 * circadian now) < 391 / 480.
Proof.
  intros He.
  pose proof (dayProgress_range host now) as Hp.
  pose proof (dayProgress_in_hour host now 0 ltac:(lia) ltac:(lia)) as Hp'.
  pose proof (circadian_range now) as Hc.
  split; [nra |].
  unfold circadian.
  apply (weight_bound (getHours now)).
  - apply getHours_range.
  - lra.
  - split; [apply SIN_bound |].
    apply (sin_hour_upper (getHours now)), getHours_range.
Qed.

(** The same when the clock was set back by at most an hour. *)
Lemma weighted_progress_bound_hour (host : TimeZone) (now : Date) :
  (elapsed host now <= timeOfDay now + 3600000)%Z ->
  0 <= dayProgress host now * (0.7 + 0.6 * circadian now) < 69 / 80.
Proof.
  intros He.
  pose proof (dayProgress_range host now) as Hp.
  pose proof (dayProgress_in_hour host now 1 ltac:(lia) ltac:(lia)) as Hp'.
  pose proof (circadian_range now) as Hc.
  split; [nra |].
  unfold circadian.
  apply (weight_bound_hour (getHours now)).
  - apply getHours_range.
  - exact Hp.
  - lra.
  - split; [apply SIN_bound |].
    apply (sin_hour_upper (getHours now)), getHours_range.
Qed.

(** The same when the clock was set back by at most three hours. *)
Lemma weighted_progress_bound_three_hours (host : TimeZone) (now : Date) :
  (elapsed host now <= timeOfDay now + 3 * 3600000)%Z ->
  0 <= dayProgress host now * (0.7 + 0.6 * circadian now) < 97 / 100.
Proof.
  intros He.
  pose proof (dayProgress_range host now) as Hp.
  pose proof (dayProgress_in_hour host now 3 ltac:(lia) ltac:(lia)) as Hp'.
  pose proof (circadian_range now) as Hc.
  split; [nra |].
  unfold circadian.
  apply (weight_bound_three_hours (getHours now)).
  - apply getHours_range.
  - exact Hp.
  - lra.
  - split; [apply SIN_bound |].
    apply (sin_hour_upper (getHours now)), getHours_range.
Qed.

Lemma steps_rounded_nonneg (host : TimeZone) (now : Date) :
  (0 <= steps_rounded host now)%Z.
Proof.
  pose proof (dayProgress_range host now) as Hp.
  pose proof (circadian_range now) as Hc.
  unfold steps_rounded, goal.
  replace 0%Z with (Math_roundR 0) by (apply Math_roundR_eq; simpl; lra).
  apply Math_roundR_mono. nra.
Qed.

Lemma steps_rounded_range (host : TimeZone) (now : Date) :
  (elapsed host now <= timeOfDay now)%Z ->
  (0 <= steps_rounded host now <= 8146)%Z.
Proof.
  intros He. split; [apply steps_rounded_nonneg |].
  pose proof (weighted_progress_bound host now He) as [H0 H1].
  unfold steps_rounded, goal.
  replace 8146%Z with (Math_roundR 8146) by (apply Math_roundR_eq; lra).
  apply Math_roundR_mono. nra.
Qed.

Lemma steps_rounded_range_hour (host : TimeZone) (now : Date) :
  (elapsed host now <= timeOfDay now + 3600000)%Z ->
  (0 <= steps_rounded host now <= 8625)%Z.
Proof.
  intros He. split; [apply steps_rounded_nonneg |].
  pose proof (weighted_progress_bound_hour host now He) as [H0 H1].
  unfold steps_rounded, goal.
  replace 8625%Z with (Math_roundR 8625) by (apply Math_roundR_eq; lra).
  apply Math_roundR_mono. nra.
Qed.

Lemma steps_rounded_range_three_hours (host : TimeZone) (now : Date) :
  (elapsed host now <= timeOfDay now + 3 * 3600000)%Z ->
  (0 <= steps_rounded host now <= 9700)%Z.
Proof.
  intros He. split; [apply steps_rounded_nonneg |].
  pose proof (weighted_progress_bound_three_hours host now He) as [H0 H1].
  unfold steps_rounded, goal.
  replace 9700%Z with (Math_roundR 9700) by (apply Math_roundR_eq; lra).
  apply Math_roundR_mono. nra.
Qed.

(** The value returned is a whole number between 0 and the goal. *)
Lemma useSimulatedSteps_whole (host : TimeZone) (now : Date) :
  exists z : Z, useSimulatedSteps host now = IZR z /\ (0 <= z <= 10000)%Z.
Proof.
  pose proof (steps_rounded_nonneg host now) as H0.
  unfold useSimulatedSteps, goal.
  destruct (Z_le_gt_dec (steps_rounded host now) 10000) as [Hle | Hgt].
  - exists (steps_rounded host now). split; [| lia].
    apply IZR_le in H0. apply IZR_le in Hle. apply clampR_id. lra.
  - exists 10000%Z. split; [| lia].
    assert (H : (10000 <= steps_rounded host now)%Z) by lia.
    apply IZR_le in H. apply clampR_high. exact H.
Qed.

(** Below the goal the clamp of source line 79 is not active. *)
Lemma useSimulatedSteps_unclamped (host : TimeZone) (now : Date) :
  (steps_rounded host now <= 10000)%Z ->
  useSimulatedSteps host now = IZR (steps_rounded host now).
Proof.
  intros Hle. pose proof (steps_rounded_nonneg host now) as H0.
  apply IZR_le in H0. apply IZR_le in Hle.
  unfold useSimulatedSteps, goal. apply clampR_id. lra.
Qed.

(** The circadian weight grows with the clock hour up to 12. *)
Lemma circadian_mono (now1 now2 : Date) :
  (getHours now1 <= getHours now2 <= 12)%Z -> circadian now1 <= circadian now2.
Proof.
  intros [H12 H2]. pose proof (getHours_range now1) as [H1 _].
  pose proof PI_RGT_0 as Hpi.
  apply IZR_le in H12. apply IZR_le in H2. apply IZR_le in H1.
  unfold circadian.
  assert (Hs : sin ((IZR (getHours now1) - 6) / 24 * PI * 2)
               <= sin ((IZR (getHours now2) - 6) / 24 * PI * 2)).
  { apply sin_incr_1; nra. }
  lra.
Qed.

End StepsTheorems.

Section StepsClaims.
Local Open Scope R_scope.

Lemma steps_four_pm : useSimulatedSteps utc_host four_pm = 7667.
Proof.
  assert (Hr : steps_rounded utc_host four_pm = 7667%Z).
  { unfold steps_rounded.
    rewrite dayProgress_of_elapsed by (vm_compute; split; discriminate).
    unfold circadian, goal.
    change (elapsed utc_host four_pm) with 57600000%Z.
    change (getHours four_pm) with 16%Z.
    replace ((16 - 6) / 24 * PI * 2) with (PI - PI / 6) by lra.
    rewrite sin_PI_x, sin_PI6.
    apply Math_roundR_eq. lra. }
  rewrite useSimulatedSteps_unclamped; rewrite Hr; [reflexivity | lia].
Qed.

Lemma steps_six_pm : useSimulatedSteps utc_host six_pm = 7500.
Proof.
  assert (Hr : steps_rounded utc_host six_pm = 7500%Z).
  { unfold steps_rounded.
    rewrite dayProgress_of_elapsed by (vm_compute; split; discriminate).
    unfold circadian, goal.
    change (elapsed utc_host six_pm) with 64800000%Z.
    change (getHours six_pm) with 18%Z.
    replace ((18 - 6) / 24 * PI * 2) with PI by lra.
    rewrite sin_PI.
    apply Math_roundR_eq. lra. }
  rewrite useSimulatedSteps_unclamped; rewrite Hr; [reflexivity | lia].
Qed.

(** C3, as stated, fails: 16:00 and 18:00 fall on the same calendar day of
    a host on UTC, yet the steps value drops from 7667 to 7500. *)
Lemma steps_drop_within_day :
  (getTime four_pm <= getTime six_pm)%Z /\
  localDay four_pm = localDay six_pm /\
  useSimulatedSteps utc_host four_pm = 7667 /\
  useSimulatedSteps utc_host six_pm = 7500 /\
  ~ (useSimulatedSteps utc_host four_pm <= useSimulatedSteps utc_host six_pm).
Proof.
  split; [simpl; lia |]. split; [reflexivity |].
  split; [apply steps_four_pm |]. split; [apply steps_six_pm |].
  rewrite steps_four_pm, steps_six_pm. lra.
Qed.

(** C3 (amended): for two instants [now1], [now2] with [now1] not after
    [now2] that fall on the same calendar day, whatever the host's time
    zone, the steps value at [now2] is at least the steps value at [now1]
    when both fall in the same clock hour, and when the clock hour of
    [now1] is not after that of [now2] and both are before 13:00 (so that
    the circadian weighting has not fallen). *)
Theorem steps_monotone_same_day (host : TimeZone) (now1 now2 : Date) :
  (getTime now1 <= getTime now2)%Z ->
  localDay now1 = localDay now2 ->
  getHours now1 = getHours now2 \/ (getHours now1 <= getHours now2 <= 12)%Z ->
  useSimulatedSteps host now1 <= useSimulatedSteps host now2.
Proof.
  intros Hle Hday Hhour.
  assert (Hp : dayProgress host now1 <= dayProgress host now2).
  { unfold dayProgress. rewrite (startOfDay_same_day host now1 now2 Hday).
    apply clampR_mono.
    assert (Hd : (getTime now1 - getTime (startOfDay host now2)
                  <= getTime now2 - getTime (startOfDay host now2))%Z) by lia.
    apply IZR_le in Hd. lra. }
  assert (Hc : circadian now1 <= circadian now2).
  { destruct Hhour as [Heq | Hmorning].
    - unfold circadian. rewrite Heq. lra.
    - apply circadian_mono, Hmorning. }
  pose proof (dayProgress_range host now1) as Hp1.
  pose proof (circadian_range now1) as Hc1.
  unfold useSimulatedSteps. apply clampR_mono, IZR_le.
  unfold steps_rounded. apply Math_roundR_mono.
  unfold goal. nra.
Qed.

Lemma steps_monotone_same_day_witness :
  useSimulatedSteps utc_host four_pm <= useSimulatedSteps utc_host half_past_four /\
  useSimulatedSteps utc_host nine_am <= useSimulatedSteps utc_host half_past_eleven.
Proof.
  split.
  - apply (steps_monotone_same_day utc_host four_pm half_past_four);
      [simpl; lia | reflexivity | left; reflexivity].
  - apply (steps_monotone_same_day utc_host nine_am half_past_eleven);
      [simpl; lia | reflexivity | right; vm_compute; split; discriminate].
Defined.

(** 12:00 of the 47-hour day in Kwajalein: 35 hours after the start of the
    day, at the peak of the circadian weighting. *)
Lemma steps_kwajalein_noon :
  steps_rounded kwajalein_1969 kwajalein_noon = 13000%Z.
Proof.
  assert (Hd : dayProgress kwajalein_1969 kwajalein_noon = 1).
  { rewrite dayProgress_elapsed.
    change (elapsed kwajalein_1969 kwajalein_noon) with 126000000%Z.
    apply clampR_high. lra. }
  unfold steps_rounded. rewrite Hd. unfold circadian, goal.
  change (getHours kwajalein_noon) with 12%Z.
  replace ((12 - 6) / 24 * PI * 2) with (PI / 2) by lra.
  rewrite sin_PI2. apply Math_roundR_eq. lra.
Qed.

(** C9, as stated, fails: on a host in Kwajalein the local day 1969-09-30
    lasts 47 hours; at its second 12:00:00 the day fraction is clamped to
    1, the product of source line 78 is 1.3, and the value returned is the
    goal itself, by the upper clamp. *)
Lemma steps_reach_goal :
  civil_from_days (localDay kwajalein_noon) = (1969, 9, 30)%Z /\
  getHours kwajalein_noon = 12%Z /\
  elapsed kwajalein_1969 kwajalein_noon = (35 * 3600000)%Z /\
  steps_rounded kwajalein_1969 kwajalein_noon = 13000%Z /\
  useSimulatedSteps kwajalein_1969 kwajalein_noon = 10000 /\
  ~ (useSimulatedSteps kwajalein_1969 kwajalein_noon < goal).
Proof.
  split; [vm_compute; reflexivity |]. split; [vm_compute; reflexivity |].
  split; [vm_compute; reflexivity |]. split; [apply steps_kwajalein_noon |].
  assert (Hs : useSimulatedSteps kwajalein_1969 kwajalein_noon = 10000).
  { unfold useSimulatedSteps. rewrite steps_kwajalein_noon.
    unfold goal. apply clampR_high. lra. }
  split; [exact Hs |]. rewrite Hs. unfold goal. lra.
Qed.

(** C9 (amended): at every instant at which at most three hours more have
    passed since the start of the day than the local clock shows, the steps
    value is strictly below the 10000-step goal: the product
    dayProgress * (0.7 + 0.6 * circadian) is below 0.97, hence below 1, so
    the upper clamp at the goal is not active.  The product is below
    69/80 = 0.8625 when at most one hour more has passed (a clock set back
    by an hour), and below 391/480 (about 0.81) when no more has passed
    than the clock shows (no set-back, as on every day of a host that keeps
    one UTC offset). *)
Theorem steps_below_goal (host : TimeZone) (now : Date) :
  (elapsed host now <= timeOfDay now + 3 * 3600000)%Z ->
  dayProgress host now * (0.7 + 0.6 * circadian now) < 97 / 100 /\
  dayProgress host now * (0.7 + 0.6 * circadian now) < 1 /\
  useSimulatedSteps host now = IZR (steps_rounded host now) /\
  useSimulatedSteps host now < goal /\
  useSimulatedSteps host now <> 10000 /\
  ((elapsed host now <= timeOfDay now + 3600000)%Z ->
   dayProgress host now * (0.7 + 0.6 * circadian now) < 69 / 80 /\
   useSimulatedSteps host now <= 8625) /\
  ((elapsed host now <= timeOfDay now)%Z ->
   dayProgress host now * (0.7 + 0.6 * circadian now) < 391 / 480 /\
   useSimulatedSteps host now <= 8146).
Proof.
  intros He.
  pose proof (weighted_progress_bound_three_hours host now He) as [H0 H1].
  pose proof (steps_rounded_range_three_hours host now He) as [Hlo Hhi].
  assert (Heq : useSimulatedSteps host now = IZR (steps_rounded host now))
    by (apply useSimulatedSteps_unclamped; lia).
  apply IZR_le in Hlo. apply IZR_le in Hhi.
  rewrite Heq. unfold goal.
  split; [exact H1 |]. split; [lra |]. split; [reflexivity |].
  split; [lra |]. split; [lra |]. split.
  - intros He1.
    pose proof (weighted_progress_bound_hour host now He1) as [_ H2].
    pose proof (steps_rounded_range_hour host now He1) as [_ Hhi1].
    apply IZR_le in Hhi1. split; [exact H2 | exact Hhi1].
  - intros He0.
    pose proof (weighted_progress_bound host now He0) as [_ H2].
    pose proof (steps_rounded_range host now He0) as [_ Hhi0].
    apply IZR_le in Hhi0. split; [exact H2 | exact Hhi0].
Qed.

(** On the day New York sets the clock back, and on a day without a
    change. *)
Lemma steps_below_goal_witness :
  useSimulatedSteps new_york_2024 fall_back_afternoon < goal /\
  useSimulatedSteps new_york_2024 fall_back_afternoon <= 8625 /\
  useSimulatedSteps utc_host four_pm <= 8146.
Proof.
  split; [| split].
  - apply (steps_below_goal new_york_2024 fall_back_afternoon).
    vm_compute. discriminate.
  - apply (steps_below_goal new_york_2024 fall_back_afternoon).
    + vm_compute. discriminate.
    + vm_compute. discriminate.
  - apply (steps_below_goal utc_host four_pm).
    + vm_compute. discriminate.
    + vm_compute. discriminate.
Defined.

(** The bound 8625 is reached: 16:59:59.999 on the day New York sets the
    clock back, 18 hours less a millisecond after that day's midnight. *)
Example steps_fall_back_afternoon :
  elapsed new_york_2024 fall_back_afternoon = (18 * 3600000 - 1)%Z /\
  getHours fall_back_afternoon = 16%Z /\
  useSimulatedSteps new_york_2024 fall_back_afternoon = 8625.
Proof.
  split; [vm_compute; reflexivity |]. split; [vm_compute; reflexivity |].
  assert (Hr : steps_rounded new_york_2024 fall_back_afternoon = 8625%Z).
  { unfold steps_rounded.
    rewrite dayProgress_of_elapsed by (vm_compute; split; discriminate).
    unfold circadian, goal.
    change (elapsed new_york_2024 fall_back_afternoon) with 64799999%Z.
    change (getHours fall_back_afternoon) with 16%Z.
    replace ((16 - 6) / 24 * PI * 2) with (PI - PI / 6) by lra.
    rewrite sin_PI_x, sin_PI6.
    apply Math_roundR_eq. lra. }
  rewrite useSimulatedSteps_unclamped; rewrite Hr; [reflexivity | lia].
Qed.

End StepsClaims.

(* ===================================================================== *)
(** ** Weather fetcher: what a settled fetch does to the snapshot *)
(* ===================================================================== *)



(** A first element that is absent or a primitive (null, boolean, number,
    string) never makes [new Date] throw. *)
Lemma new_Date_throws_primitive (v : jsval) :
  match v with Some (JArr _) | Some (JObj _) => False | _ => True end ->
  new_Date_throws v = false.
Proof.
  destruct v as [[| b | q | s | items | props] |]; intros H;
    try contradiction; unfold new_Date_throws; cbn [ToPrimitive_throws];
    try reflexivity; apply andb_false_r.
Qed.




Example snapshot_of_sample : snapshot_of sample_payload = known_weather.
Proof. reflexivity. Qed.

Lemma run_effect_data (g : bool) (h : Hook) : data (run_effect g h) = data h.
Proof. unfold run_effect. destruct g; reflexivity. Qed.

Lemma commit_data (g : bool) (h : Hook) : data (commit g h) = data h.
Proof.
  unfold commit. destruct (Nat.eqb (now_ref h) (deps_ref h));
    [reflexivity | rewrite run_effect_data; reflexivity].
Qed.

Lemma start_fetch_data (run : nat) (lat lon : Q) (h : Hook) :
  data (start_fetch run lat lon h) = data h.
Proof.
  unfold start_fetch.
  destruct (runs h !! run) as [[c [| |]]|]; try reflexivity.
  destruct (run_now h !! run); reflexivity.
Qed.

(** In the hook, only a settling fetch touches the snapshot. *)
Lemma step_data (g : bool) (e : Event) (h : Hook) :
  data (step g e h) = data h \/
  exists run o, e = FetchSettles run o /\
    exists c, runs h !! run = Some (mkRun c Fetching) /\
      data (step g e h) = fetchWeather_settle c o (data h).
Proof.
  destruct e as [t | | run lat lon | run | run o]; cbn [step].
  - left. rewrite commit_data. reflexivity.
  - left. apply commit_data.
  - left. apply start_fetch_data.
  - left. apply start_fetch_data.
  - destruct (runs h !! run) as [[c [| |]]|] eqn:Hr; try (left; reflexivity).
    right. exists run, o. split; [reflexivity |]. exists c.
    split; [first [exact Hr | reflexivity] | reflexivity].
Qed.

(* ===================================================================== *)
(** ** Weather fetcher: when requests are issued *)
(* ===================================================================== *)

Lemma pending_app (rs1 rs2 : list EffectRun) :
  pending (rs1 ++ rs2) = (pending rs1 + pending rs2)%nat.
Proof.
  induction rs1 as [|[c [| |]] rs1 IH]; simpl; rewrite ?IH; reflexivity.
Qed.

Lemma pending_alter (f : EffectRun -> EffectRun) (i : nat) (rs : list EffectRun) :
  (forall r, phase (f r) = phase r) -> pending (alter f i rs) = pending rs.
Proof.
  intros Hf. revert i.
  induction rs as [|r rs IH]; intros [|i]; simpl; try reflexivity.
  - specialize (Hf r). destruct r as [c p], (f (mkRun c p)) as [c' p'].
    simpl in Hf. subst p'. reflexivity.
  - specialize (IH i). unfold alter in IH. rewrite IH. reflexivity.
Qed.

Lemma pending_cleanup (rs : list EffectRun) : pending (cleanup rs) = pending rs.
Proof.
  unfold cleanup. destruct (length rs); [reflexivity |].
  apply pending_alter. reflexivity.
Qed.

Lemma length_cleanup (rs : list EffectRun) : length (cleanup rs) = length rs.
Proof.
  unfold cleanup. destruct (length rs) eqn:E;
    rewrite ?length_alter; first [reflexivity | exact E].
Qed.

Lemma pending_start (rs : list EffectRun) (i : nat) (c : bool) :
  rs !! i = Some (mkRun c Locating) ->
  S (pending (<[i := mkRun c Fetching]> rs)) = pending rs.
Proof.
  revert i. induction rs as [|r rs IH]; intros [|i] Hi; simpl in *;
    try discriminate.
  - injection Hi as ->. reflexivity.
  - destruct r as [c' [| |]]; rewrite <- (IH i Hi); reflexivity.
Qed.

Lemma pending_settle (rs : list EffectRun) (i : nat) (c : bool) :
  rs !! i = Some (mkRun c Fetching) ->
  pending (<[i := mkRun c Settled]> rs) = pending rs.
Proof.
  revert i. induction rs as [|r rs IH]; intros [|i] Hi; simpl in *;
    try discriminate.
  - injection Hi as ->. reflexivity.
  - destruct r as [c' [| |]]; rewrite (IH i Hi); reflexivity.
Qed.

Lemma run_effect_inv (g : bool) (h : Hook) :
  length (run_now h) = length (runs h) ->
  (length (requests h) + pending (runs h))%nat = length (runs h) ->
  hook_inv (run_effect g h).
Proof.
  intros H1 H2. unfold run_effect.
  destruct g; split; simpl; rewrite ?length_app, ?pending_app; simpl; lia.
Qed.

Lemma mount_inv (g : bool) (t0 : Z) : hook_inv (mount g t0).
Proof. unfold mount. apply run_effect_inv; reflexivity. Qed.

Lemma step_inv (g : bool) (e : Event) (h : Hook) :
  hook_inv h -> hook_inv (step g e h).
Proof.
  intros [Hd Hn Hr].
  destruct e as [t | | run lat lon | run | run o]; cbn [step].
  - unfold commit. cbn [now_ref deps_ref now_time data runs run_now requests].
    rewrite Hd.
    replace (Nat.eqb (S (deps_ref h)) (deps_ref h)) with false
      by (symmetry; apply Nat.eqb_neq; lia).
    apply run_effect_inv; simpl; rewrite ?length_cleanup, ?pending_cleanup;
      assumption.
  - unfold commit. rewrite Hd, Nat.eqb_refl. split; assumption.
  - unfold start_fetch.
    destruct (runs h !! run) as [[c [| |]]|] eqn:E; try (split; assumption).
    destruct (run_now h !! run); [| split; assumption].
    split; simpl; rewrite ?length_insert, ?length_app; try assumption.
    pose proof (pending_start _ _ _ E). simpl. lia.
  - unfold start_fetch.
    destruct (runs h !! run) as [[c [| |]]|] eqn:E; try (split; assumption).
    destruct (run_now h !! run); [| split; assumption].
    split; simpl; rewrite ?length_insert, ?length_app; try assumption.
    pose proof (pending_start _ _ _ E). simpl. lia.
  - destruct (runs h !! run) as [[c [| |]]|] eqn:E; try (split; assumption).
    split; simpl; rewrite ?length_insert; try assumption.
    rewrite (pending_settle _ _ _ E). assumption.
Qed.

(** One effect run per clock tick, whatever else happens. *)
Lemma step_run_now (g : bool) (e : Event) (h : Hook) :
  hook_inv h ->
  run_now (step g e h) = run_now h ++ tick_times [e].
Proof.
  intros [Hd _ _].
  destruct e as [t | | run lat lon | run | run o]; cbn [step tick_times].
  - unfold commit. cbn [now_ref deps_ref now_time data runs run_now requests].
    rewrite Hd.
    replace (Nat.eqb (S (deps_ref h)) (deps_ref h)) with false
      by (symmetry; apply Nat.eqb_neq; lia).
    unfold run_effect. destruct g; reflexivity.
  - unfold commit. rewrite Hd, Nat.eqb_refl. symmetry; apply app_nil_r.
  - unfold start_fetch.
    destruct (runs h !! run) as [[c [| |]]|]; try (symmetry; apply app_nil_r).
    destruct (run_now h !! run); symmetry; apply app_nil_r.
  - unfold start_fetch.
    destruct (runs h !! run) as [[c [| |]]|]; try (symmetry; apply app_nil_r).
    destruct (run_now h !! run); symmetry; apply app_nil_r.
  - destruct (runs h !! run) as [[c [| |]]|]; symmetry; apply app_nil_r.
Qed.

Lemma tick_times_cons (e : Event) (es : list Event) :
  tick_times (e :: es) = tick_times [e] ++ tick_times es.
Proof. destruct e; reflexivity. Qed.

Lemma run_events_inv (g : bool) (es : list Event) (h : Hook) :
  hook_inv h -> hook_inv (run_events g es h).
Proof.
  unfold run_events. revert h.
  induction es as [|e es IH]; intros h Hh; simpl; [exact Hh |].
  apply IH, step_inv, Hh.
Qed.

Lemma run_events_run_now (g : bool) (es : list Event) (h : Hook) :
  hook_inv h -> run_now (run_events g es h) = run_now h ++ tick_times es.
Proof.
  unfold run_events. revert h.
  induction es as [|e es IH]; intros h Hh.
  - simpl. symmetry. apply app_nil_r.
  - cbn [fold_left]. rewrite (IH _ (step_inv g e h Hh)).
    rewrite (step_run_now g e h Hh), (tick_times_cons e es).
    symmetry. apply app_assoc.
Qed.

Lemma no_pending_lookup (rs : list EffectRun) (i : nat) (c : bool) :
  pending rs = O -> rs !! i <> Some (mkRun c Locating).
Proof.
  intros Hp Hi. pose proof (pending_start rs i c Hi). lia.
Qed.

Lemma step_fallback_inv (e : Event) (h : Hook) :
  hook_inv h -> fallback_inv h -> fallback_inv (step false e h).
Proof.
  intros [Hd _ _] [Hp Hq]. unfold fallback_inv.
  destruct e as [t | | run lat lon | run | run o]; cbn [step].
  - unfold commit. cbn [now_ref deps_ref now_time data runs run_now requests].
    rewrite Hd.
    replace (Nat.eqb (S (deps_ref h)) (deps_ref h)) with false
      by (symmetry; apply Nat.eqb_neq; lia).
    unfold run_effect. cbn [runs requests run_now now_time].
    rewrite pending_app, pending_cleanup, Hp, Hq, map_app. split; reflexivity.
  - unfold commit. rewrite Hd, Nat.eqb_refl. split; assumption.
  - unfold start_fetch.
    destruct (runs h !! run) as [[c [| |]]|] eqn:E; try (split; assumption).
    exfalso. exact (no_pending_lookup _ _ _ Hp E).
  - unfold start_fetch.
    destruct (runs h !! run) as [[c [| |]]|] eqn:E; try (split; assumption).
    exfalso. exact (no_pending_lookup _ _ _ Hp E).
  - destruct (runs h !! run) as [[c [| |]]|] eqn:E; try (split; assumption).
    cbn [runs requests run_now]. rewrite (pending_settle _ _ _ E).
    split; assumption.
Qed.

Lemma run_events_fallback_inv (es : list Event) (h : Hook) :
  hook_inv h -> fallback_inv h -> fallback_inv (run_events false es h).
Proof.
  unfold run_events. revert h.
  induction es as [|e es IH]; intros h Hh Hf; simpl; [exact Hf |].
  apply IH; [apply step_inv, Hh | apply step_fallback_inv; assumption].
Qed.

Lemma requests_in_minute_fallback (m : Z) (ts : list Z) :
  length (filter (fun r => minute_of (req_now r) = m) (map fallback_request ts))
  = length (filter (fun t => minute_of t = m) ts).
Proof.
  induction ts as [|t ts IH]; [reflexivity |].
  cbn [map]. rewrite !filter_cons. cbn [fallback_request req_now].
  destruct (decide (minute_of t = m)); simpl; rewrite IH; reflexivity.
Qed.

(** C4, as stated, fails: the effect depends on the [now] object, which is
    new at every tick.  Two ticks one second apart, in the same
    clock-minute, each issue a request, without geolocation (the London
    fallback) and with it (once the position callbacks fire). *)
Lemma weather_two_requests_same_minute :
  minute_of 0 = minute_of 1000 /\
  requests (run_events false [Tick 1000] (mount false 0))
    = [fallback_request 0; fallback_request 1000] /\
  requests_in_minute (minute_of 0) (run_events false [Tick 1000] (mount false 0))
    = 2%nat /\
  requests (run_events true [Tick 1000; GeoError 0%nat; GeoSuccess 1%nat 35.68 139.69]
                       (mount true 0))
    = [fallback_request 0; mkRequest 1000 35.68 139.69].
Proof. repeat split; reflexivity. Qed.

(** C4 (amended): the weather effect runs once at mount and once more for
    every clock tick, whichever minute the tick falls in; each run issues
    at most one current-conditions request, and without a geolocation
    capability exactly one, at once: the requests issued for a
    clock-minute are as many as the ticks (and the mount) in that minute. *)
Theorem weather_fetch_every_tick (g : bool) (t0 : Z) (es : list Event) :
  let h := run_events g es (mount g t0) in
  run_now h = t0 :: tick_times es /\
  length (runs h) = S (length (tick_times es)) /\
  (length (requests h) <= length (runs h))%nat /\
  (g = false ->
   requests h = map fallback_request (t0 :: tick_times es) /\
   forall m : Z,
     requests_in_minute m h
     = length (filter (fun t => minute_of t = m) (t0 :: tick_times es))).
Proof.
  intros h.
  pose proof (run_events_inv g es _ (mount_inv g t0)) as Hinv. fold h in Hinv.
  assert (Hn : run_now h = t0 :: tick_times es).
  { subst h. rewrite (run_events_run_now g es _ (mount_inv g t0)).
    unfold mount, run_effect. destruct g; reflexivity. }
  destruct Hinv as [Hd Hl Hr].
  split; [exact Hn |]. split; [rewrite <- Hl, Hn; reflexivity |].
  split; [lia |].
  intros ->.
  assert (Hf : fallback_inv h).
  { subst h. apply run_events_fallback_inv; [apply mount_inv |].
    split; reflexivity. }
  destruct Hf as [_ Hq]. rewrite Hn in Hq.
  split; [exact Hq |].
  intros m. unfold requests_in_minute. rewrite Hq.
  apply requests_in_minute_fallback.
Qed.

Lemma weather_fetch_every_tick_witness :
  requests (run_events false [Tick 1000; Rerender; Tick 2000] (mount false 0))
  = map fallback_request [0; 1000; 2000]%Z.
Proof.
  exact (proj1 (proj2 (proj2 (proj2
           (weather_fetch_every_tick false 0 [Tick 1000; Rerender; Tick 2000])))
           eq_refl)).
Defined.

(* ===================================================================== *)
(** ** Second time zone *)
(* ===================================================================== *)

Lemma localMs_of_local (l off : Z) : localMs (mkDate (l - off) off) = l.
Proof. unfold localMs. simpl. lia. Qed.

Lemma formatHhMm_of_local (l off : Z) :
  formatHhMm (mkDate (l - off) off)
  = (formatTwoDigits ((l / 3600000) mod 24) ++ ":"
     ++ formatTwoDigits ((l / 60000) mod 60))%string.
Proof.
  unfold formatHhMm, getHours, getMinutes. rewrite localMs_of_local. reflexivity.
Qed.

Section ZonedFacts.
Local Open Scope Z_scope.

Lemma all_from_spec (P : Z -> bool) (n : nat) (a : Z) :
  all_from P a n = true -> forall z, a <= z < a + Z.of_nat n -> P z = true.
Proof.
  revert a. induction n as [|k IH]; intros a H z Hz; [lia |].
  simpl in H. apply andb_prop in H as [H1 H2].
  destruct (Z.eq_dec z a) as [-> | Hne]; [exact H1 |].
  apply (IH (a + 1) H2). lia.
Qed.

Lemma all_between (P : Z -> bool) (a b : Z) :
  all_from P a (Z.to_nat (b - a)) = true -> forall z, a <= z < b -> P z = true.
Proof. intros H z Hz. apply (all_from_spec P _ a H). lia. Qed.

Lemma formatTwoDigits_two (n : Z) : 0 <= n < 100 -> formatTwoDigits n = two_digits n.
Proof.
  intros Hn. apply String.eqb_eq.
  apply (all_between (fun z => String.eqb (formatTwoDigits z) (two_digits z)) 0 100);
    [vm_compute; reflexivity | exact Hn].
Qed.

Lemma toString_four (y : Z) : 1000 <= y < 10000 -> toString y = four_digits y.
Proof.
  intros Hy. apply String.eqb_eq.
  apply (all_between (fun z => String.eqb (toString z) (four_digits z)) 1000 10000);
    [vm_compute; reflexivity | exact Hy].
Qed.

Lemma digit_of_char (d : Z) : 0 <= d < 10 -> digit_of (digit_char d) = Some d.
Proof.
  intros Hd.
  pose proof (all_between
    (fun z => match digit_of (digit_char z) with Some v => v =? z | None => false end)
    0 10 ltac:(vm_compute; reflexivity) d Hd) as H.
  cbv beta in H. destruct (digit_of (digit_char d)) as [v|]; [| discriminate].
  apply Z.eqb_eq in H. congruence.
Qed.

Lemma number_of_two (a b : Z) :
  0 <= a < 10 -> 0 <= b < 10 ->
  number_of (String (digit_char a) (String (digit_char b) EmptyString)) 0 = Some (10 * a + b).
Proof.
  intros Ha Hb. cbn [number_of]. rewrite !digit_of_char by assumption.
  f_equal; lia.
Qed.

Lemma number_of_four (a b c d : Z) :
  0 <= a < 10 -> 0 <= b < 10 -> 0 <= c < 10 -> 0 <= d < 10 ->
  number_of (String (digit_char a) (String (digit_char b)
              (String (digit_char c) (String (digit_char d) EmptyString)))) 0
  = Some (1000 * a + 100 * b + 10 * c + d).
Proof.
  intros Ha Hb Hc Hd. cbn [number_of]. rewrite !digit_of_char by assumption.
  f_equal; lia.
Qed.

Lemma parse_iso_local_digits (y m d hh mm ss : Z) :
  1000 <= y <= 9999 -> 1 <= m <= 12 -> 1 <= d <= 31 ->
  0 <= hh <= 23 -> 0 <= mm <= 59 -> 0 <= ss <= 59 ->
  parse_iso_local
    (four_digits y ++ "-" ++ two_digits m ++ "-" ++ two_digits d ++ "T"
     ++ two_digits hh ++ ":" ++ two_digits mm ++ ":" ++ two_digits ss)
  = Some (y, m, d, hh, mm, ss).
Proof.
  intros Hy Hm Hd Hhh Hmm Hss.
  unfold four_digits, two_digits, parse_iso_local, separator, field.
  lazy beta iota zeta delta [String.append String.length String.substring Nat.eqb String.eqb Ascii.eqb Bool.eqb andb].
  rewrite number_of_four by (Z.div_mod_to_equations; lia).
  rewrite !number_of_two by (Z.div_mod_to_equations; lia).
  cbn [mbind option_bind].
  replace (1000 * (y / 1000) + 100 * (y / 100 mod 10) + 10 * (y / 10 mod 10) + y mod 10)
    with y by (Z.div_mod_to_equations; lia).
  replace (10 * (m / 10) + m mod 10) with m by (Z.div_mod_to_equations; lia).
  replace (10 * (d / 10) + d mod 10) with d by (Z.div_mod_to_equations; lia).
  replace (10 * (hh / 10) + hh mod 10) with hh by (Z.div_mod_to_equations; lia).
  replace (10 * (mm / 10) + mm mod 10) with mm by (Z.div_mod_to_equations; lia).
  replace (10 * (ss / 10) + ss mod 10) with ss by (Z.div_mod_to_equations; lia).
  replace (1 <=? m) with true by (symmetry; apply Z.leb_le; lia).
  replace (m <=? 12) with true by (symmetry; apply Z.leb_le; lia).
  replace (1 <=? d) with true by (symmetry; apply Z.leb_le; lia).
  replace (d <=? 31) with true by (symmetry; apply Z.leb_le; lia).
  replace (hh <=? 23) with true by (symmetry; apply Z.leb_le; lia).
  replace (mm <=? 59) with true by (symmetry; apply Z.leb_le; lia).
  replace (ss <=? 59) with true by (symmetry; apply Z.leb_le; lia).
  reflexivity.
Qed.

Lemma civil_month_day (z : Z) :
  let '(y, m, d) := civil_from_days z in 1 <= m <= 12 /\ 1 <= d <= 31.
Proof.
  unfold civil_from_days.
  set (z' := z + 719468).
  set (era := z' / 146097).
  set (doe := z' - era * 146097).
  assert (Hdoe : 0 <= doe <= 146096).
  { subst doe era. pose proof (Z.mod_pos_bound z' 146097).
    pose proof (Z.mod_eq z' 146097). lia. }
  clearbody doe. clear era z' z.
  set (yoe := (doe - doe / 1460 + doe / 36524 - doe / 146096) / 365).
  assert (Hyoe : 0 <= yoe <= 399) by (subst yoe; Z.div_mod_to_equations; lia).
  set (doy := doe - (365 * yoe + yoe / 4 - yoe / 100)).
  assert (Hdoy : 0 <= doy <= 365) by (subst doy yoe; Z.div_mod_to_equations; lia).
  clearbody doy.
  set (mp := (5 * doy + 2) / 153).
  assert (Hmp : 0 <= mp <= 11) by (subst mp; Z.div_mod_to_equations; lia).
  assert (Hd : 1 <= doy - (153 * mp + 2) / 5 + 1 <= 31)
    by (subst mp; Z.div_mod_to_equations; lia).
  clearbody mp.
  destruct (mp <? 10) eqn:E; [apply Z.ltb_lt in E | apply Z.ltb_ge in E];
    split; lia.
Qed.

Lemma civil_year_range (z : Z) :
  -354285 <= z <= 2932896 ->
  let '(y, m, d) := civil_from_days z in 1000 <= y <= 9999.
Proof.
  intros Hz. unfold civil_from_days.
  set (z' := z + 719468).
  assert (Hz' : 365183 <= z' <= 3652364) by (subst z'; lia).
  clearbody z'. clear Hz z.
  set (era := z' / 146097).
  set (doe := z' - era * 146097).
  assert (Hdoe : 0 <= doe <= 146096).
  { subst doe era. pose proof (Z.mod_pos_bound z' 146097).
    pose proof (Z.mod_eq z' 146097). lia. }
  assert (Hera : 2 <= era <= 24) by (subst era; Z.div_mod_to_equations; lia).
  assert (Hz : z' = era * 146097 + doe) by (subst doe; lia).
  clearbody doe. clearbody era.
  set (yoe := (doe - doe / 1460 + doe / 36524 - doe / 146096) / 365).
  assert (Hyoe : 0 <= yoe <= 399) by (subst yoe; Z.div_mod_to_equations; lia).
  set (doy := doe - (365 * yoe + yoe / 4 - yoe / 100)).
  set (mp := (5 * doy + 2) / 153).
  assert (Hdoy : 0 <= doy <= 365) by (subst doy yoe; Z.div_mod_to_equations; lia).
  assert (Hmp : 0 <= mp <= 11) by (subst mp; Z.div_mod_to_equations; lia).
  assert (Hlow : era = 2 -> 200 <= yoe \/ (yoe = 199 /\ 306 <= doy)).
  { intros He. subst doy yoe. Z.div_mod_to_equations; lia. }
  assert (Hhigh : era = 24 -> yoe < 399 \/ (yoe = 399 /\ doy < 306)).
  { intros He. subst doy yoe. Z.div_mod_to_equations; lia. }
  assert (Hmp10 : mp < 10 <-> doy < 306) by (subst mp; Z.div_mod_to_equations; lia).
  clearbody doy. clearbody yoe. clearbody mp.
  destruct (mp <? 10) eqn:E; [apply Z.ltb_lt in E | apply Z.ltb_ge in E].
  - replace (mp + 3 <=? 2) with false by (symmetry; apply Z.leb_gt; lia). lia.
  - replace (mp - 9 <=? 2) with true by (symmetry; apply Z.leb_le; lia). lia.
Qed.

Lemma iso_of_formatToParts (zoneOffset now : Z) :
  let wall := now + zoneOffset in
  let '(y, m, d) := civil_from_days (wall / 86400000) in
  iso_of_parts (collect_parts (formatToParts zoneOffset now))
  = (toString y ++ "-" ++ formatTwoDigits m ++ "-" ++ formatTwoDigits d ++ "T"
     ++ formatTwoDigits ((wall / 3600000) mod 24) ++ ":"
     ++ formatTwoDigits ((wall / 60000) mod 60) ++ ":"
     ++ formatTwoDigits ((wall / 1000) mod 60))%string.
Proof.
  intros wall. unfold formatToParts. fold wall.
  destruct (civil_from_days (wall / 86400000)) as [[y m] d].
  generalize (toString y) (formatTwoDigits m) (formatTwoDigits d)
             (formatTwoDigits ((wall / 3600000) mod 24))
             (formatTwoDigits ((wall / 60000) mod 60))
             (formatTwoDigits ((wall / 1000) mod 60)).
  intros sy sm sd shh smm sss. reflexivity.
Qed.

Lemma days_from_civil_from_days (z : Z) :
  let '(y, m, d) := civil_from_days z in days_from_civil y m d = z.
Proof.
  unfold civil_from_days.
  set (z' := z + 719468).
  set (era := z' / 146097).
  set (doe := z' - era * 146097).
  assert (Hdoe : 0 <= doe <= 146096).
  { subst doe era. pose proof (Z.mod_pos_bound z' 146097).
    pose proof (Z.mod_eq z' 146097). lia. }
  assert (Hz : z = era * 146097 + doe - 719468) by (subst doe z'; lia).
  clearbody doe. clearbody era. clear z'.
  set (yoe := (doe - doe / 1460 + doe / 36524 - doe / 146096) / 365).
  assert (Hyoe : 0 <= yoe <= 399) by (subst yoe; Z.div_mod_to_equations; lia).
  set (doy := doe - (365 * yoe + yoe / 4 - yoe / 100)).
  assert (Hdoy : 0 <= doy <= 365) by (subst doy yoe; Z.div_mod_to_equations; lia).
  assert (Hdoe' : doe = yoe * 365 + yoe / 4 - yoe / 100 + doy) by (subst doy; lia).
  clearbody doy. clearbody yoe.
  set (mp := (5 * doy + 2) / 153).
  assert (Hmp : 0 <= mp <= 11) by (subst mp; Z.div_mod_to_equations; lia).
  set (d := doy - (153 * mp + 2) / 5 + 1).
  assert (Hd : doy = (153 * mp + 2) / 5 + d - 1) by (subst d; lia).
  clearbody d. clearbody mp.
  unfold days_from_civil.
  destruct (mp <? 10) eqn:E; [apply Z.ltb_lt in E | apply Z.ltb_ge in E].
  - replace (mp + 3 <=? 2) with false by (symmetry; apply Z.leb_gt; lia).
    replace (2 <? mp + 3) with true by (symmetry; apply Z.ltb_lt; lia).
    replace (mp + 3 - 3) with mp by lia.
    replace ((yoe + era * 400) / 400) with era
      by (apply (Z.div_unique_pos _ 400 era yoe); lia).
    replace (yoe + era * 400 - era * 400) with yoe by lia.
    lia.
  - replace (mp - 9 <=? 2) with true by (symmetry; apply Z.leb_le; lia).
    replace (2 <? mp - 9) with false by (symmetry; apply Z.ltb_ge; lia).
    replace (mp - 9 + 9) with mp by lia.
    replace (yoe + era * 400 + 1 - 1) with (yoe + era * 400) by lia.
    replace ((yoe + era * 400) / 400) with era
      by (apply (Z.div_unique_pos _ 400 era yoe); lia).
    replace (yoe + era * 400 - era * 400) with yoe by lia.
    lia.
Qed.

(** The projected date is always the one the host's time zone makes of the
    zone's wall-clock time, cut to whole seconds. *)
Lemma getZonedDate_value
    (tzdata : string -> Z -> Z) (host : TimeZone) (tz : string) (now : Z) :
  four_digit_year (now + tzdata tz now) ->
  getZonedDate tzdata host tz now
  = Some (Date_of_local host ((now + tzdata tz now) / 1000 * 1000)).
Proof.
  unfold four_digit_year, getZonedDate.
  set (off := tzdata tz now). set (wall := now + off). intros Hw.
  pose proof (iso_of_formatToParts off now) as Hiso. cbv zeta in Hiso. fold wall in Hiso.
  pose proof (civil_month_day (wall / 86400000)) as Hmd.
  pose proof (civil_year_range (wall / 86400000)
                ltac:(Z.div_mod_to_equations; lia)) as Hy.
  pose proof (days_from_civil_from_days (wall / 86400000)) as Hrt.
  destruct (civil_from_days (wall / 86400000)) as [[y m] d].
  destruct Hmd as [Hm Hd]. rewrite Hiso. clear Hiso.
  pose proof (Z.mod_pos_bound (wall / 3600000) 24 ltac:(lia)) as Hhh.
  pose proof (Z.mod_pos_bound (wall / 60000) 60 ltac:(lia)) as Hmm.
  pose proof (Z.mod_pos_bound (wall / 1000) 60 ltac:(lia)) as Hss.
  assert (Hsum : wall / 86400000 * 86400000 + (wall / 3600000) mod 24 * 3600000
                 + (wall / 60000) mod 60 * 60000 + (wall / 1000) mod 60 * 1000
                 = wall / 1000 * 1000).
  { clear. Z.div_mod_to_equations. lia. }
  set (hh := (wall / 3600000) mod 24) in *.
  set (mm := (wall / 60000) mod 60) in *.
  set (ss := (wall / 1000) mod 60) in *.
  unfold Date_of_iso.
  rewrite (toString_four y) by lia.
  rewrite (formatTwoDigits_two m), (formatTwoDigits_two d),
    (formatTwoDigits_two hh), (formatTwoDigits_two mm),
    (formatTwoDigits_two ss) by lia.
  rewrite parse_iso_local_digits by lia.
  cbn [mbind option_bind]. rewrite Hrt, Hsum. reflexivity.
Qed.

(** Cutting the milliseconds leaves the hour, the minute and the second. *)
Lemma whole_seconds_fields (wall : Z) :
  (wall / 1000 * 1000 / 3600000) mod 24 = (wall / 3600000) mod 24 /\
  (wall / 1000 * 1000 / 60000) mod 60 = (wall / 60000) mod 60 /\
  (wall / 1000 * 1000 / 1000) mod 60 = (wall / 1000) mod 60.
Proof.
  repeat split; f_equal; Z.div_mod_to_equations; lia.
Qed.


(** A host that keeps one offset shows every local time. *)
Lemma host_shows_fixed_zone (off l : Z) : host_shows (fixed_zone off) l.
Proof.
  unfold host_shows, Date_of_local, Date_at, UTC, possibleInstants, offsetAt,
    fixed_zone, localMs.
  cbn [initialOffset transitions instants_from offset_from getTime utcOffset].
  lia.
Qed.

End ZonedFacts.

(** The calendar arithmetic on known dates: the epoch, 2000-02-29,
    2024-01-01, 2024-02-29, and the first and last day with a four-digit
    year. *)
Example civil_from_days_samples :
  civil_from_days 0 = (1970, 1, 1)%Z /\
  civil_from_days 11016 = (2000, 2, 29)%Z /\
  civil_from_days 19723 = (2024, 1, 1)%Z /\
  civil_from_days 19782 = (2024, 2, 29)%Z /\
  civil_from_days (-30610224000000 / 86400000) = (1000, 1, 1)%Z /\
  civil_from_days ((253402300800000 - 1) / 86400000) = (9999, 12, 31)%Z /\
  days_from_civil 2024 1 1 = 19723%Z /\
  days_from_civil 1970 1 1 = 0%Z.
Proof. repeat split; vm_compute; reflexivity. Qed.

Example tokyo_iso :
  iso_of_parts (collect_parts (formatToParts utc_plus_9 new_year_2024))
  = "2024-01-01T09:00:00"%string.
Proof. vm_compute. reflexivity. Qed.

(** [formatHhMm] always yields five characters, zero-padded [HH:MM]. *)
Lemma formatHhMm_zero_padded (now : Date) :
  formatHhMm now
  = (two_digits (getHours now) ++ ":" ++ two_digits (getMinutes now))%string.
Proof.
  unfold formatHhMm.
  pose proof (getHours_range now). pose proof (getMinutes_range now).
  rewrite !formatTwoDigits_two by lia. reflexivity.
Qed.





(* ===================================================================== *)
(** ** [clamp] *)
(* ===================================================================== *)

(** X1: with [min <= max], [clamp] returns a value of the interval, the
    value itself when it already lies in it, and clamping twice changes
    nothing; with the bounds inverted ([max < min]) it returns [max]
    whatever the value. *)
Theorem clamp_contract (v lo hi : Q) :
  (lo <= hi ->
   lo <= clamp v lo hi <= hi /\
   (lo <= v <= hi -> clamp v lo hi == v) /\
   clamp (clamp v lo hi) lo hi == clamp v lo hi) /\
  (hi < lo -> clamp v lo hi == hi).
Proof.
  unfold clamp, Math_min, Math_max. split.
  - intros Hlh.
    assert (Hin : lo <= Qmin hi (Qmax lo v) <= hi).
    { split; [apply Q.min_glb; [exact Hlh | apply Q.le_max_l] | apply Q.le_min_l]. }
    split; [exact Hin |]. split.
    + intros [H1 H2]. rewrite (Q.max_r lo v H1). apply Q.min_r. exact H2.
    + destruct Hin as [H1 H2].
      rewrite (Q.max_r lo _ H1). apply Q.min_r. exact H2.
  - intros Hlt. apply Q.min_l.
    apply Qle_trans with lo; [apply Qlt_le_weak, Hlt | apply Q.le_max_l].
Qed.

Lemma clamp_contract_witness :
  clamp 150 0 100 == 100 /\ clamp 7 10 5 == 5.
Proof.
  split.
  - transitivity (clamp (clamp 150 0 100) 0 100); [| vm_compute; reflexivity].
    symmetry.
    exact (proj2 (proj2 (proj1 (clamp_contract 150 0 100)
                           ltac:(vm_compute; discriminate)))).
  - exact (proj2 (clamp_contract 7 10 5) ltac:(vm_compute; reflexivity)).
Defined.

(* ===================================================================== *)
(** ** Heart-rate simulator *)
(* ===================================================================== *)

Lemma inject_Z_sub (a b : Z) : inject_Z (a - b) == inject_Z a - inject_Z b.
Proof.
  unfold Z.sub. rewrite inject_Z_plus, inject_Z_opp. reflexivity.
Qed.

Lemma heartRate_next_bounds (prev random : Q) :
  58 <= heartRate_next prev random <= 140.
Proof.
  unfold heartRate_next. split; [apply clamp_lower; lra | apply clamp_upper].
Qed.

Lemma heartRate_next_integer (prev random : Q) :
  exists z : Z, heartRate_next prev random == inject_Z z.
Proof.
  unfold heartRate_next, clamp, Math_min, Math_max.
  set (r := Math_round (prev + (random - 0.5) * 4)).
  destruct (Q.min_dec 140 (Qmax 58 (inject_Z r))) as [H | H].
  - exists 140%Z. rewrite H. reflexivity.
  - destruct (Q.max_dec 58 (inject_Z r)) as [H' | H'].
    + exists 58%Z. rewrite H, H'. reflexivity.
    + exists r. rewrite H, H'. reflexivity.
Qed.

(** X2: whatever [Math.random] draws and however many interval callbacks
    run, the simulated heart rate is a whole number between 58 and 140. *)
Theorem heartRate_always_in_range (randoms : list Q) :
  58 <= useSimulatedHeartRate randoms <= 140 /\
  exists z : Z, useSimulatedHeartRate randoms == inject_Z z.
Proof.
  unfold useSimulatedHeartRate.
  induction randoms as [|r rs IH] using rev_ind.
  - simpl. unfold heartRate_initial. split; [lra | exists 72%Z; reflexivity].
  - rewrite fold_left_app. simpl.
    split; [apply heartRate_next_bounds | apply heartRate_next_integer].
Qed.

(** X3: one interval callback moves a heart rate that is a whole number in
    [58, 140] by at most 2 beats, for every draw [0 <= random < 1]. *)
Theorem heartRate_step_at_most_2 (prev : Z) (random : Q) :
  (58 <= prev <= 140)%Z -> 0 <= random < 1 ->
  inject_Z prev - 2 <= heartRate_next (inject_Z prev) random <= inject_Z prev + 2.
Proof.
  intros Hp Hr. unfold heartRate_next.
  set (m := Math_round (inject_Z prev + (random - 0.5) * 4)).
  assert (Hm : (prev - 2 <= m <= prev + 2)%Z).
  { subst m. split.
    - rewrite <- (Math_round_inject (prev - 2)). apply Math_round_mono.
      rewrite inject_Z_sub. change (inject_Z 2) with 2. lra.
    - rewrite <- (Math_round_inject (prev + 2)). apply Math_round_mono.
      rewrite inject_Z_plus. change (inject_Z 2) with 2. lra. }
  assert (Hm' : inject_Z (prev - 2) <= inject_Z m <= inject_Z (prev + 2)).
  { apply inject_Z_range. exact Hm. }
  rewrite inject_Z_sub, inject_Z_plus in Hm'. change (inject_Z 2) with 2 in Hm'.
  pose proof (inject_Z_range _ _ _ Hp) as Hp'.
  change (inject_Z 58) with 58 in Hp'. change (inject_Z 140) with 140 in Hp'.
  unfold clamp, Math_min, Math_max. split.
  - apply Q.min_glb; [lra |].
    apply Qle_trans with (inject_Z m); [lra | apply Q.le_max_r].
  - apply Qle_trans with (Qmax 58 (inject_Z m)); [apply Q.le_min_r |].
    apply Q.max_lub; lra.
Qed.

Lemma heartRate_step_at_most_2_witness :
  72 - 2 <= heartRate_next 72 0 <= 72 + 2.
Proof.
  apply (heartRate_step_at_most_2 72 0); [lia | split; vm_compute; reflexivity || discriminate].
Defined.

(* ===================================================================== *)
(** ** Battery simulator: drain, persistence and reset *)
(* ===================================================================== *)


(** [Math.round(x * 10) / 10] is within a twentieth of [x]. *)
Lemma round_tenth_close (x : Q) :
  x - (1 # 20) < inject_Z (Math_round (x * 10)) / 10 <= x + (1 # 20).
Proof.
  unfold Math_round.
  pose proof (Qfloor_le (x * 10 + (1 # 2))) as Hle.
  pose proof (Qlt_floor (x * 10 + (1 # 2))) as Hlt.
  rewrite inject_Z_plus in Hlt. change (inject_Z 1) with 1 in Hlt.
  split.
  - apply Qlt_shift_div_l; lra.
  - apply Qle_shift_div_r; lra.
Qed.

Lemma battery_next_drain (v : Q) :
  0 <= v <= 100 -> battery_next v == Qmax 0 (v - 0.0007).
Proof.
  intros [H0 H1]. unfold battery_next, clamp, Math_min, Math_max.
  apply Q.min_r. apply Q.max_lub; lra.
Qed.

(** X4: in the exact arithmetic of the rational model, from a value [b] in
    [0, 100] the per-tick decay is linear until the battery is empty and
    then stays at 0: after [n] interval callbacks the value is
    [max 0 (b - 0.0007 * n)].  (The source's binary64 subtraction rounds at
    every tick, so its value agrees with this closed form up to the
    accumulated rounding error only; see [battery_rounding_binary64].) *)
Theorem battery_drain_closed_form (b : Q) (n : nat) :
  0 <= b <= 100 ->
  battery_after n b == Qmax 0 (b - 0.0007 * inject_Z (Z.of_nat n)).
Proof.
  intros Hb. induction n as [|k IH].
  - assert (E : b - 0.0007 * inject_Z (Z.of_nat 0) == b)
      by (change (inject_Z (Z.of_nat 0)) with 0; ring).
    cbn [battery_after]. rewrite Q.max_r; [symmetry; exact E | rewrite E; lra].
  - cbn [battery_after].
    assert (Hk : 0 <= battery_after k b <= 100).
    { destruct k as [|j]; [exact Hb | apply battery_next_bounds]. }
    rewrite (battery_next_drain _ Hk).
    rewrite Nat2Z.inj_succ. unfold Z.succ. rewrite inject_Z_plus.
    change (inject_Z 1) with 1.
    set (m := inject_Z (Z.of_nat k)) in *.
    destruct (Q.max_spec 0 (b - 0.0007 * m)) as [[Hc He] | [Hc He]];
      rewrite He in IH;
      destruct (Q.max_spec 0 (battery_after k b - 0.0007)) as [[Hc1 He1] | [Hc1 He1]];
      destruct (Q.max_spec 0 (b - 0.0007 * (m + 1))) as [[Hc2 He2] | [Hc2 He2]];
      rewrite He1, He2; lra.
Qed.

Lemma battery_drain_closed_form_witness :
  battery_after 3 80 == 79.9979 /\ battery_after 2 0.001 == 0.
Proof.
  split.
  - rewrite (battery_drain_closed_form 80 3); [vm_compute; reflexivity |].
    split; vm_compute; discriminate.
  - rewrite (battery_drain_closed_form 0.001 2); [vm_compute; reflexivity |].
    split; vm_compute; discriminate.
Defined.

(** X5: in the exact arithmetic of the rational model, what a session
    persists survives a reload: with the clock not gone back since the last
    interval callback, the initial value after the reload is at least 0 and
    at most a twentieth above the value the session showed last; reloaded
    at the very clock reading of that callback it is within a twentieth of
    it.  (In binary64 the bound of a twentieth can be missed by a rounding
    error; see [battery_rounding_binary64].) *)
Theorem battery_reload_round_trip
    (ticks : list Z) (t : Z) (st : Q * Storage) (random : Q) (t0 t1 : Z) :
  (t <= t1)%Z ->
  let st' := battery_session (ticks ++ [t]) st in
  let v := useSimulatedBattery_init true (snd st') random t0 t1 in
  0 <= v <= fst st' + (1 # 20) /\
  (t1 = t -> fst st' - (1 # 20) < v).
Proof.
  intros Ht st' v.
  destruct (battery_session_storage ticks t st) as [Hp Hu].
  fold st' in Hp, Hu.
  assert (Hb : 0 <= fst st' <= 100).
  { subst st'. rewrite battery_session_value, length_app, Nat.add_comm.
    simpl. apply battery_next_bounds. }
  subst v. unfold useSimulatedBattery_init. simpl negb. cbv iota zeta.
  rewrite Hp, Hu, parseInt_inject.
  set (m := inject_Z (t1 - t) / 60000).
  assert (Hm : 0 <= m).
  { subst m. assert (Hz : (0 <= t1 - t)%Z) by lia.
    rewrite Zle_Qle in Hz. change (inject_Z 0) with 0 in Hz.
    apply Qle_shift_div_l; lra. }
  set (d := Math_max 0 (fst st' - m * 0.04)).
  assert (Hd : 0 <= d <= fst st').
  { subst d. unfold Math_max. split; [apply Q.le_max_l | apply Q.max_lub; lra]. }
  pose proof (round_tenth_close d) as [Hlo Hhi].
  split; [split; [apply round_tenth_nonneg; lra | lra] |].
  intros ->.
  assert (Hd' : d == fst st').
  { subst d m. unfold Math_max. rewrite Z.sub_diag.
    assert (E : fst st' - inject_Z 0 / 60000 * 0.04 == fst st')
      by (change (inject_Z 0) with 0; field).
    rewrite Q.max_r; [exact E | rewrite E; lra]. }
  lra.
Qed.

Lemma battery_reload_round_trip_witness :
  80 - 0.0007 - (1 # 20)
  < useSimulatedBattery_init true
      (snd (battery_session ([] ++ [5000%Z]) (80, ∅))) 0 0 5000.
Proof.
  exact (proj2 (battery_reload_round_trip [] 5000 (80, ∅) 0 0 5000
                  ltac:(lia)) eq_refl).
Defined.

Section Binary64Drain.
Import PrimFloat.
Local Open Scope float_scope.

(** What binary64 rounding does to the two statements above: three ticks
    from 80 give 79.99790000000002, not the binary64 number nearest to
    79.9979; and a stored value of 0.15 (the binary64 number just below
    it) is reloaded as 0.2, which exceeds it by more than the binary64
    number 0.05. *)
Example battery_rounding_binary64 :
  Binary64.battery_next (Binary64.battery_next (Binary64.battery_next 80))
  = 79.99790000000002 /\
  (79.99790000000002 =? 79.9979) = false /\
  Binary64.battery_init 0.15 0 = 0.2 /\
  (0.2 - 0.15 <=? 0.05) = false.
Proof. repeat split; vm_compute; reflexivity. Qed.

End Binary64Drain.




(* ===================================================================== *)
(** ** Hands, geometry and what is drawn *)
(* ===================================================================== *)

Lemma getHours_shift (t off k : Z) :
  getHours (mkDate (t + k * 3600000) off) = ((getHours (mkDate t off) + k) mod 24)%Z.
Proof.
  unfold getHours, localMs. simpl.
  replace (t + k * 3600000 + off)%Z with (t + off + k * 3600000)%Z by lia.
  rewrite Z.div_add by lia. rewrite Z.add_mod_idemp_l by lia. reflexivity.
Qed.

Lemma getMinutes_shift (t off k : Z) :
  getMinutes (mkDate (t + k * 3600000) off) = getMinutes (mkDate t off).
Proof.
  unfold getMinutes, localMs. simpl.
  replace (t + k * 3600000 + off)%Z with (t + off + (k * 60) * 60000)%Z by lia.
  rewrite Z.div_add by lia. rewrite Z.add_mod by lia.
  rewrite Z.mod_mul by lia. rewrite Z.add_0_r. apply Z.mod_mod. lia.
Qed.

Lemma getSeconds_shift (t off k : Z) :
  getSeconds (mkDate (t + k * 60000) off) = getSeconds (mkDate t off).
Proof.
  unfold getSeconds, localMs. simpl.
  replace (t + k * 60000 + off)%Z with (t + off + (k * 60) * 1000)%Z by lia.
  rewrite Z.div_add by lia. rewrite Z.add_mod by lia.
  rewrite Z.mod_mul by lia. rewrite Z.add_0_r. apply Z.mod_mod. lia.
Qed.

(** X7: the hands show a 12-hour dial and follow the local clock: for two
    instants at which the host's UTC offset is the same, twelve hours apart
    all three hand angles are the same, an hour apart the minute and second
    hand angles are the same, and a minute apart the second hand angle is
    the same. *)
Theorem handAngle_periodic (now1 now2 : Date) :
  utcOffset now2 = utcOffset now1 ->
  (getTime now2 = (getTime now1 + 43200000)%Z -> handAngle now2 = handAngle now1) /\
  (getTime now2 = (getTime now1 + 3600000)%Z ->
   minute (handAngle now2) = minute (handAngle now1) /\
   second (handAngle now2) = second (handAngle now1)) /\
  (getTime now2 = (getTime now1 + 60000)%Z ->
   second (handAngle now2) = second (handAngle now1)).
Proof.
  destruct now1 as [t off], now2 as [t2 off2]. cbn [getTime utcOffset].
  intros ->.
  pose proof (getHours_shift t off 12) as Hh.
  pose proof (getMinutes_shift t off 12) as Hm.
  pose proof (getSeconds_shift t off 720) as Hs.
  pose proof (getMinutes_shift t off 1) as Hm1.
  pose proof (getSeconds_shift t off 60) as Hs1.
  pose proof (getSeconds_shift t off 1) as Hs2.
  change (12 * 3600000)%Z with 43200000%Z in Hh, Hm.
  change (720 * 60000)%Z with 43200000%Z in Hs.
  change (1 * 3600000)%Z with 3600000%Z in Hm1.
  change (60 * 60000)%Z with 3600000%Z in Hs1.
  change (1 * 60000)%Z with 60000%Z in Hs2.
  unfold handAngle. cbn [hour minute second].
  split; [| split].
  - intros ->. rewrite Hh, Hm, Hs.
    replace (((getHours (mkDate t off) + 12) mod 24) mod 12)%Z
      with (getHours (mkDate t off) mod 12)%Z; [reflexivity |].
    pose proof (getHours_range (mkDate t off)).
    Z.div_mod_to_equations. lia.
  - intros ->. rewrite Hm1, Hs1. split; reflexivity.
  - intros ->. rewrite Hs2. reflexivity.
Qed.

Lemma handAngle_periodic_witness :
  handAngle (mkDate 43200000 0) = handAngle (mkDate 0 0) /\
  second (handAngle (mkDate 60000 3600000)) = second (handAngle (mkDate 0 3600000)).
Proof.
  split.
  - exact (proj1 (handAngle_periodic (mkDate 0 0) (mkDate 43200000 0) eq_refl) eq_refl).
  - exact (proj2 (proj2 (handAngle_periodic (mkDate 0 3600000) (mkDate 60000 3600000)
                           eq_refl)) eq_refl).
Defined.

(** Across a change of the offset the hands do not repeat after twelve
    hours: 20:00 in New York on 2024-03-09 and 09:00 the next morning. *)
Example handAngle_across_offset_change :
  hour (handAngle (Date_at new_york_2024 1710032400000)) == 240 /\
  hour (handAngle (Date_at new_york_2024 (1710032400000 + 43200000))) == 270.
Proof. split; vm_compute; reflexivity. Qed.

Section Geometry.
Local Open Scope R_scope.

Lemma toRadians_shift (a : R) : toRadians (a - 90) = toRadians a - PI / 2.
Proof. unfold toRadians. lra. Qed.

Lemma polarToCartesian_xy (cx cy r a : R) :
  x (polarToCartesian cx cy r a) = cx + r * sin (toRadians a) /\
  y (polarToCartesian cx cy r a) = cy - r * cos (toRadians a).
Proof.
  unfold polarToCartesian. cbn [x y]. rewrite toRadians_shift.
  rewrite cos_minus, sin_minus, cos_PI2, sin_PI2. split; lra.
Qed.

Lemma polarToCartesian_ext (cx cy r a b : R) :
  sin (toRadians a) = sin (toRadians b) ->
  cos (toRadians a) = cos (toRadians b) ->
  polarToCartesian cx cy r a = polarToCartesian cx cy r b.
Proof.
  intros Hs Hc.
  destruct (polarToCartesian_xy cx cy r a) as [Hxa Hya].
  destruct (polarToCartesian_xy cx cy r b) as [Hxb Hyb].
  destruct (polarToCartesian cx cy r a) as [xa ya].
  destruct (polarToCartesian cx cy r b) as [xb yb].
  cbn [x y] in *. subst. rewrite Hs, Hc. reflexivity.
Qed.

Lemma toRadians_turn (a : R) : toRadians (a + 360) = toRadians a + 2 * PI.
Proof. unfold toRadians. lra. Qed.

Lemma sin_cos_turn (t : R) : sin (t + 2 * PI) = sin t /\ cos (t + 2 * PI) = cos t.
Proof.
  rewrite sin_plus, cos_plus, sin_2PI, cos_2PI. split; lra.
Qed.

Lemma dist2_center (cx cy r a : R) :
  dist2 (polarToCartesian cx cy r a) (mkPoint cx cy) = r * r.
Proof.
  destruct (polarToCartesian_xy cx cy r a) as [Hx Hy].
  unfold dist2. cbn [x y]. rewrite Hx, Hy.
  pose proof (sin2_cos2 (toRadians a)) as H. unfold Rsqr in H. nra.
Qed.

(** X8: [polarToCartesian] measures the angle clockwise from the top of
    the (y-down) drawing plane: the point is
    (cx + r sin a, cy - r cos a); it lies at distance |r| from the
    centre, and a full turn of 360 degrees gives the same point. *)
Theorem polarToCartesian_clockwise_from_top (cx cy r a : R) :
  x (polarToCartesian cx cy r a) = cx + r * sin (toRadians a) /\
  y (polarToCartesian cx cy r a) = cy - r * cos (toRadians a) /\
  dist2 (polarToCartesian cx cy r a) (mkPoint cx cy) = r * r /\
  polarToCartesian cx cy r (a + 360) = polarToCartesian cx cy r a.
Proof.
  destruct (polarToCartesian_xy cx cy r a) as [Hx Hy].
  split; [exact Hx |]. split; [exact Hy |]. split; [apply dist2_center |].
  destruct (sin_cos_turn (toRadians a)) as [Hs Hc].
  apply polarToCartesian_ext; rewrite toRadians_turn; assumption.
Qed.

Lemma trig_quarters :
  (sin (toRadians 0) = 0 /\ cos (toRadians 0) = 1) /\
  (sin (toRadians 90) = 1 /\ cos (toRadians 90) = 0) /\
  (sin (toRadians (-90)) = -1 /\ cos (toRadians (-90)) = 0) /\
  (sin (toRadians (-180)) = 0 /\ cos (toRadians (-180)) = -1) /\
  (sin (toRadians 360) = 0 /\ cos (toRadians 360) = 1).
Proof.
  unfold toRadians.
  replace (0 * PI / 180) with 0 by lra.
  replace (90 * PI / 180) with (PI / 2) by lra.
  replace (-90 * PI / 180) with (- (PI / 2)) by lra.
  replace (-180 * PI / 180) with (- PI) by lra.
  replace (360 * PI / 180) with (2 * PI) by lra.
  rewrite !sin_neg, !cos_neg, sin_0, cos_0, sin_PI2, cos_PI2, sin_PI, cos_PI,
    sin_2PI, cos_2PI.
  repeat split; lra.
Qed.

(** X9: where the four sub-dials are drawn.  The position the source names
    [posTop] (battery) lies left of the dial centre, [posLeft] (steps)
    below it, [posRight] (heart rate) above it and [posBottom] (date) to
    its right, each at 0.55 of the dial radius (the y axis points down). *)
Theorem subdial_positions (size : R) :
  posTop size = mkPoint (center size - radius size * 0.55) (center size) /\
  posLeft size = mkPoint (center size) (center size + radius size * 0.55) /\
  posRight size = mkPoint (center size) (center size - radius size * 0.55) /\
  posBottom size = mkPoint (center size + radius size * 0.55) (center size).
Proof.
  destruct trig_quarters as [[S0 C0] [[S1 C1] [[S2 C2] [[S3 C3] _]]]].
  unfold posTop, posLeft, posRight, posBottom.
  repeat split.
  - destruct (polarToCartesian_xy (center size) (center size) (radius size * 0.55) (-90)) as [Hx Hy].
    destruct (polarToCartesian _ _ _ (-90)) as [px py]. cbn [x y] in *.
    rewrite S2 in Hx. rewrite C2 in Hy. f_equal; lra.
  - destruct (polarToCartesian_xy (center size) (center size) (radius size * 0.55) (-180)) as [Hx Hy].
    destruct (polarToCartesian _ _ _ (-180)) as [px py]. cbn [x y] in *.
    rewrite S3 in Hx. rewrite C3 in Hy. f_equal; lra.
  - destruct (polarToCartesian_xy (center size) (center size) (radius size * 0.55) 0) as [Hx Hy].
    destruct (polarToCartesian _ _ _ 0) as [px py]. cbn [x y] in *.
    rewrite S0 in Hx. rewrite C0 in Hy. f_equal; lra.
  - destruct (polarToCartesian_xy (center size) (center size) (radius size * 0.55) 90) as [Hx Hy].
    destruct (polarToCartesian _ _ _ 90) as [px py]. cbn [x y] in *.
    rewrite S1 in Hx. rewrite C1 in Hy. f_equal; lra.
Qed.

End Geometry.

Section Drawing.
Local Open Scope R_scope.

Lemma arcPath_largeArc (size s e r : R) :
  largeArc (arcPath size s e r) = 1%Z <-> 180 < e - s.
Proof.
  unfold arcPath. cbn [largeArc].
  destruct (Rle_dec (e - s) 180) as [H | H]; split; intros H';
    try discriminate; try reflexivity; lra.
Qed.

(** X10: the battery arc sweeps an angle between 0 and 360 degrees,
    whatever the battery value; both its ends lie on the circle of radius
    [subR - 6] about the point (center, center) of the frame the path is
    drawn in; and its large-arc flag is 1 exactly when the battery value is
    above 50, and 0 otherwise. *)
Theorem batteryArc_shape (size battery : R) :
  0 <= clampR battery 0 100 / 100 * 360 <= 360 /\
  dist2 (arc_start (batteryArc size battery)) (mkPoint (center size) (center size))
    = (subR size - 6) * (subR size - 6) /\
  dist2 (arc_end (batteryArc size battery)) (mkPoint (center size) (center size))
    = (subR size - 6) * (subR size - 6) /\
  (largeArc (batteryArc size battery) = 1%Z <-> 50 < battery) /\
  (largeArc (batteryArc size battery) = 0%Z <-> battery <= 50).
Proof.
  pose proof (clampR_range battery 0 100 ltac:(lra)) as Hc.
  split; [lra |].
  split; [apply dist2_center |]. split; [apply dist2_center |].
  assert (Hflag : largeArc (batteryArc size battery) = 1%Z <-> 50 < battery).
  { unfold batteryArc. rewrite arcPath_largeArc.
    destruct (Rle_dec battery 50) as [Hle | Hgt].
    - split; [| lra]. intros H.
      destruct (Rle_dec 0 battery) as [H0 | H0].
      + rewrite clampR_id in H by lra. lra.
      + rewrite clampR_low in H by lra. lra.
    - split; [lra |]. intros _.
      destruct (Rle_dec battery 100) as [H1 | H1].
      + rewrite clampR_id by lra. lra.
      + rewrite clampR_high by lra. lra. }
  split; [exact Hflag |].
  unfold batteryArc, arcPath in *. cbn [largeArc] in *.
  destruct (Rle_dec _ 180) as [H | H].
  - split; [| reflexivity]. intros _.
    destruct (Rle_dec battery 50) as [Hle | Hgt]; [exact Hle |].
    assert (Hx : 0%Z = 1%Z) by (apply Hflag; lra). discriminate.
  - split; [discriminate |]. intros Hle.
    assert (50 < battery) by (apply Hflag; reflexivity). lra.
Qed.

(** X11: at an empty battery (value at most 0) and at a full one (value at
    least 100) the battery arc is degenerate: the point the path moves to
    and the point the arc ends in are the same, the topmost point
    (center, center - (subR - 6)) of the arc's circle. *)
Theorem batteryArc_degenerate (size battery : R) :
  battery <= 0 \/ 100 <= battery ->
  arc_start (batteryArc size battery) = arc_end (batteryArc size battery) /\
  arc_end (batteryArc size battery)
    = mkPoint (center size) (center size - (subR size - 6)).
Proof.
  intros Hb.
  destruct trig_quarters as [[S0 C0] [_ [_ [_ [S4 C4]]]]].
  assert (Hend : arc_end (batteryArc size battery)
                 = mkPoint (center size) (center size - (subR size - 6))).
  { unfold batteryArc, arcPath. cbn [arc_end].
    destruct (polarToCartesian_xy (center size) (center size) (subR size - 6) 0)
      as [Hx Hy].
    destruct (polarToCartesian _ _ _ 0) as [px py]. cbn [x y] in *.
    rewrite S0 in Hx. rewrite C0 in Hy. f_equal; lra. }
  split; [| exact Hend].
  unfold batteryArc, arcPath. cbn [arc_start arc_end].
  apply polarToCartesian_ext.
  - destruct Hb as [Hb | Hb].
    + rewrite clampR_low by lra.
      replace (0 / 100 * 360) with 0 by lra. reflexivity.
    + rewrite clampR_high by lra.
      replace (100 / 100 * 360) with 360 by lra. rewrite S4, S0. reflexivity.
  - destruct Hb as [Hb | Hb].
    + rewrite clampR_low by lra.
      replace (0 / 100 * 360) with 0 by lra. reflexivity.
    + rewrite clampR_high by lra.
      replace (100 / 100 * 360) with 360 by lra. rewrite C4, C0. reflexivity.
Qed.

Lemma batteryArc_degenerate_witness :
  arc_start (batteryArc 500 100) = arc_end (batteryArc 500 100).
Proof.
  exact (proj1 (batteryArc_degenerate 500 100 ltac:(right; lra))).
Defined.

(** X12: the steps arc is drawn for the value [useSimulatedSteps] returns:
    it sweeps between 0 and 360 degrees, at most 310.5 degrees when the
    clock was set back by at most an hour since the start of the day and
    less than 294 degrees when it was not set back, and its large-arc flag
    is 1 exactly above 5000 steps.  The heart-rate arc, for a value in
    [58, 140], sweeps between 28.8 and 324 degrees, and its large-arc flag
    is 1 exactly above 100 beats. *)
Theorem progress_arcs_shape
    (size : R) (host : TimeZone) (now : Date) (heartRate : R) :
  (0 <= useSimulatedSteps host now / 10000 * 360 <= 360 /\
   (largeArc (stepsArc size (useSimulatedSteps host now)) = 1%Z
    <-> 5000 < useSimulatedSteps host now) /\
   ((elapsed host now <= timeOfDay now + 3600000)%Z ->
    useSimulatedSteps host now / 10000 * 360 <= 310.5) /\
   ((elapsed host now <= timeOfDay now)%Z ->
    useSimulatedSteps host now / 10000 * 360 < 294)) /\
  (58 <= heartRate <= 140 ->
   28.8 <= clampR ((heartRate - 50) / 100) 0 1 * 360 <= 324 /\
   (largeArc (heartRateArc size heartRate) = 1%Z <-> 100 < heartRate)).
Proof.
  split.
  - pose proof (clampR_range (IZR (steps_rounded host now)) 0 goal
                  ltac:(unfold goal; lra)) as Hr.
    fold (useSimulatedSteps host now) in Hr. unfold goal in Hr.
    split; [lra |]. split.
    + unfold stepsArc. rewrite arcPath_largeArc. split; lra.
    + split; intros He.
      * pose proof (steps_rounded_range_hour host now He) as [Hlo Hhi].
        rewrite useSimulatedSteps_unclamped by lia.
        apply IZR_le in Hhi. lra.
      * pose proof (steps_rounded_range host now He) as [Hlo Hhi].
        rewrite useSimulatedSteps_unclamped by lia.
        apply IZR_le in Hhi. lra.
  - intros Hh.
    assert (Hc : clampR ((heartRate - 50) / 100) 0 1 = (heartRate - 50) / 100).
    { apply clampR_id. lra. }
    split; [rewrite Hc; lra |].
    unfold heartRateArc. rewrite arcPath_largeArc, Hc. split; lra.
Qed.

Lemma progress_arcs_shape_witness :
  useSimulatedSteps new_york_2024 fall_back_afternoon / 10000 * 360 <= 310.5 /\
  useSimulatedSteps utc_host four_pm / 10000 * 360 < 294 /\
  largeArc (heartRateArc 500 120) = 1%Z.
Proof.
  split; [| split].
  - apply (proj1 (proj2 (proj2 (proj1
             (progress_arcs_shape 500 new_york_2024 fall_back_afternoon 120))))).
    vm_compute. discriminate.
  - apply (proj2 (proj2 (proj2 (proj1
             (progress_arcs_shape 500 utc_host four_pm 120))))).
    vm_compute. discriminate.
  - apply (proj2 (proj2 (progress_arcs_shape 500 utc_host four_pm 120)
                    ltac:(lra))). lra.
Defined.

Lemma tickMark_angle (size : R) (i : Z) : angle (tickMark size i) = (i * 6)%Z.
Proof. reflexivity. Qed.

Lemma tickMarks_lookup (size : R) (i : nat) :
  (i < 60)%nat -> tickMarks size !! i = Some (tickMark size (Z.of_nat i)).
Proof.
  intros Hi. unfold tickMarks.
  rewrite list_lookup_fmap, lookup_seq_lt by exact Hi. reflexivity.
Qed.

(** X13: the loop draws 60 tick marks, 6 degrees apart; the one of index
    [i] is an hour mark exactly when its angle is a multiple of 30 degrees;
    each is a radial stroke whose outer end lies on the dial's edge and
    whose squared length is [len * len], with [len] 0.12 of the radius for
    an hour mark and 0.06 otherwise. *)
Theorem tickMarks_shape (size : R) :
  length (tickMarks size) = 60%nat /\
  forall i : nat, (i < 60)%nat ->
    exists t : TickMark,
      tickMarks size !! i = Some t /\
      angle t = (Z.of_nat i * 6)%Z /\
      (isHour t = true <-> (angle t mod 30 = 0)%Z) /\
      len t = (if isHour t then radius size * 0.12 else radius size * 0.06) /\
      dist2 (outer t) (mkPoint (center size) (center size))
        = radius size * radius size /\
      dist2 (outer t) (inner t) = len t * len t.
Proof.
  split.
  - unfold tickMarks. rewrite length_map, length_seq. reflexivity.
  - intros i Hi. exists (tickMark size (Z.of_nat i)).
    split; [apply tickMarks_lookup, Hi |].
    split; [reflexivity |].
    split; [| split; [reflexivity | split]].
    + unfold tickMark. cbn [isHour angle]. rewrite Z.eqb_eq.
      split; intros H; Z.div_mod_to_equations; lia.
    + apply dist2_center.
    + unfold tickMark. cbn [outer inner len].
      set (l := if (Z.of_nat i mod 5 =? 0)%Z
                then radius size * 0.12 else radius size * 0.06).
      set (a := IZR (Z.of_nat i * 6)).
      destruct (polarToCartesian_xy (center size) (center size) (radius size) a)
        as [Hx1 Hy1].
      destruct (polarToCartesian_xy (center size) (center size) (radius size - l) a)
        as [Hx2 Hy2].
      unfold dist2. rewrite Hx1, Hy1, Hx2, Hy2.
      pose proof (sin2_cos2 (toRadians a)) as H. unfold Rsqr in H. nra.
Qed.

Lemma tickMarks_shape_witness :
  exists t : TickMark,
    tickMarks 500 !! 15%nat = Some t /\ angle t = 90%Z /\ isHour t = true.
Proof.
  destruct (proj2 (tickMarks_shape 500) 15%nat ltac:(lia))
    as [t [Ht [Ha [Hh _]]]].
  exists t. split; [exact Ht |]. split; [exact Ha |].
  apply Hh. rewrite Ha. reflexivity.
Defined.

End Drawing.

(** X14: the hands point at the marks.  The second hand always points at
    the tick mark whose index is the second; at a full minute the minute
    hand points at the tick mark whose index is the minute; at a full hour
    the hour hand's angle is that of the numeral of the hour on the
    12-hour dial (numeral 12 for hour 0 or 12, up to the full turn); and
    each numeral 1..12 stands at the angle of an hour mark. *)
Theorem hands_point_at_marks (size : R) (now : Date) :
  second (handAngle now) == inject_Z (angle (tickMark size (getSeconds now))) /\
  (getSeconds now = 0%Z ->
   minute (handAngle now) == inject_Z (angle (tickMark size (getMinutes now)))) /\
  (getMinutes now = 0%Z ->
   hour (handAngle now) == inject_Z (numeralAngle (getHours now mod 12))) /\
  (forall n : Z, (1 <= n <= 12)%Z ->
     (numeralAngle n mod 360)%Z = angle (tickMark size (5 * (n mod 12))) /\
     isHour (tickMark size (5 * (n mod 12))) = true).
Proof.
  unfold handAngle, numeralAngle. cbn [hour minute second].
  rewrite !tickMark_angle.
  split; [rewrite inject_Z_mult; reflexivity |].
  split; [intros ->; rewrite inject_Z_mult; change (inject_Z 0) with 0; field |].
  split; [intros ->; rewrite inject_Z_mult; change (inject_Z 0) with 0; field |].
  intros n Hn.
  assert (Hc : (n = 1 \/ n = 2 \/ n = 3 \/ n = 4 \/ n = 5 \/ n = 6 \/ n = 7
                \/ n = 8 \/ n = 9 \/ n = 10 \/ n = 11 \/ n = 12)%Z) by lia.
  repeat (destruct Hc as [Hc | Hc]; [subst n; split; reflexivity |]).
  subst n. split; reflexivity.
Qed.

Lemma hands_point_at_marks_witness :
  hour (handAngle six_pm) == inject_Z (numeralAngle 6).
Proof.
  exact (proj1 (proj2 (proj2 (hands_point_at_marks 500 six_pm))) eq_refl).
Defined.

(* ===================================================================== *)
(** ** Steps simulator: the value over the day *)
(* ===================================================================== *)

Section StepsOverDay.
Local Open Scope R_scope.

Lemma getHours_of_timeOfDay (now : Date) :
  getHours now = (timeOfDay now / 3600000)%Z.
Proof.
  destruct (elapsed_in_hour now) as [H0 H1].
  apply (Z.div_unique_pos _ 3600000 _ (timeOfDay now - 3600000 * getHours now));
    lia.
Qed.

Lemma timeOfDay_range (now : Date) : (0 <= timeOfDay now < 86400000)%Z.
Proof. unfold timeOfDay. apply Z.mod_pos_bound. lia. Qed.

(** When exactly the local time of day has passed since the start of the
    day, the rounded product is a function of the local time of day. *)
Lemma steps_rounded_of_timeOfDay (host : TimeZone) (now : Date) :
  elapsed host now = timeOfDay now ->
  steps_rounded host now
  = Math_roundR (goal * (IZR (timeOfDay now) / 86400000)
                 * (0.7 + 0.6 * (0.5 + 0.5 * sin ((IZR (timeOfDay now / 3600000) - 6)
                                                  / 24 * PI * 2)))).
Proof.
  intros He. pose proof (timeOfDay_range now) as Hr.
  unfold steps_rounded, circadian.
  rewrite dayProgress_of_elapsed by lia.
  rewrite He, getHours_of_timeOfDay. reflexivity.
Qed.

(** X15: the steps value is a whole number between 0 and 10000, and 0 when
    the start of the day is not before the instant.  When exactly the
    local time of day has passed since the start of the day (no change of
    the host's UTC offset in between, as on every host that keeps one
    offset), the value is at most 8146 and depends on the local time of day
    only; it is 0 at local midnight and at least 7000 in the last
    millisecond before it, so the value drops to 0 at the day rollover. *)
Theorem steps_over_the_day (host : TimeZone) (now : Date) :
  (exists z : Z, useSimulatedSteps host now = IZR z /\ (0 <= z <= 10000)%Z) /\
  ((elapsed host now <= 0)%Z -> useSimulatedSteps host now = 0) /\
  (elapsed host now = timeOfDay now ->
   (exists z : Z, useSimulatedSteps host now = IZR z /\ (0 <= z <= 8146)%Z) /\
   (forall (host' : TimeZone) (other : Date),
      elapsed host' other = timeOfDay other ->
      timeOfDay other = timeOfDay now ->
      useSimulatedSteps host' other = useSimulatedSteps host now) /\
   (timeOfDay now = 0%Z -> useSimulatedSteps host now = 0) /\
   (timeOfDay now = 86399999%Z -> 7000 <= useSimulatedSteps host now)) /\
  (forall off : Z,
     host = fixed_zone off -> utcOffset now = off ->
     elapsed host now = timeOfDay now).
Proof.
  assert (Hzero : (elapsed host now <= 0)%Z -> useSimulatedSteps host now = 0).
  { intros He.
    assert (Hd : dayProgress host now = 0).
    { rewrite dayProgress_elapsed. apply IZR_le in He.
      apply clampR_low; lra. }
    assert (Hr : steps_rounded host now = 0%Z).
    { unfold steps_rounded. rewrite Hd. apply Math_roundR_eq. simpl. lra. }
    rewrite useSimulatedSteps_unclamped; rewrite Hr; [reflexivity | lia]. }
  assert (Heq : forall (h : TimeZone) (d : Date),
            elapsed h d = timeOfDay d ->
            useSimulatedSteps h d = IZR (steps_rounded h d)).
  { intros h d He. apply useSimulatedSteps_unclamped.
    pose proof (steps_rounded_range h d ltac:(lia)). lia. }
  split; [apply useSimulatedSteps_whole |]. split; [exact Hzero |].
  split; [| intros off -> Ho; apply elapsed_fixed_zone, Ho].
  intros He.
  split; [exists (steps_rounded host now); split;
          [apply Heq, He | apply steps_rounded_range; lia] |].
  split.
  { intros host' other He' Ht. rewrite (Heq _ _ He), (Heq _ _ He'). f_equal.
    rewrite (steps_rounded_of_timeOfDay _ _ He), (steps_rounded_of_timeOfDay _ _ He').
    rewrite Ht. reflexivity. }
  split; [intros H0; apply Hzero; lia |].
  intros H1. rewrite (Heq _ _ He).
  apply IZR_le with (n := 7000%Z).
  replace 7000%Z with (Math_roundR 6999.9) by (apply Math_roundR_eq; lra).
  rewrite (steps_rounded_of_timeOfDay _ _ He), H1.
  apply Math_roundR_mono.
  pose proof (SIN_bound ((IZR (86399999 / 3600000) - 6) / 24 * PI * 2)).
  unfold goal. nra.
Qed.

Lemma steps_over_the_day_witness :
  useSimulatedSteps utc_host (mkDate 0 0) = 0 /\
  7000 <= useSimulatedSteps new_york_2024 (Date_at new_york_2024 1718510399999).
Proof.
  split.
  - apply (proj1 (proj2 (steps_over_the_day utc_host (mkDate 0 0)))).
    vm_compute. discriminate.
  - apply (proj1 (proj2 (proj2 (steps_over_the_day new_york_2024
                                  (Date_at new_york_2024 1718510399999)))));
      vm_compute; reflexivity.
Defined.

End StepsOverDay.

(* ===================================================================== *)
(** ** Weather fetcher: stale responses, request provenance, payload reading *)
(* ===================================================================== *)

Lemma stale_cancelled_snoc (rs : list EffectRun) (r : EffectRun) :
  stale_cancelled rs -> stale_cancelled (cleanup rs ++ [r]).
Proof.
  intros Hs i r' Hi Hlen.
  rewrite length_app, length_cleanup in Hlen. simpl in Hlen.
  rewrite lookup_app_l in Hi by (rewrite length_cleanup; lia).
  unfold cleanup in Hi. destruct (length rs) as [|n] eqn:En; [lia |].
  destruct (decide (n = i)) as [-> | Hne].
  - rewrite list_lookup_alter_eq in Hi.
    destruct (rs !! i) as [r0|]; [| discriminate].
    simpl in Hi. injection Hi as <-. reflexivity.
  - rewrite list_lookup_alter_ne in Hi by exact Hne.
    apply (Hs i r' Hi). lia.
Qed.

Lemma stale_cancelled_insert (rs : list EffectRun) (i : nat) (c : bool) (p q : Phase) :
  rs !! i = Some (mkRun c p) ->
  stale_cancelled rs -> stale_cancelled (<[i := mkRun c q]> rs).
Proof.
  intros Hi Hs j r Hj Hlen. rewrite length_insert in Hlen.
  destruct (decide (i = j)) as [-> | Hne].
  - rewrite list_lookup_insert_eq in Hj by (apply lookup_lt_Some in Hi; exact Hi).
    injection Hj as <-. apply (Hs j _ Hi Hlen).
  - rewrite list_lookup_insert_ne in Hj by exact Hne. apply (Hs j r Hj Hlen).
Qed.

Lemma step_stale_cancelled (g : bool) (e : Event) (h : Hook) :
  hook_inv h -> stale_cancelled (runs h) -> stale_cancelled (runs (step g e h)).
Proof.
  intros [Hd _ _] Hs.
  destruct e as [t | | run lat lon | run | run o]; cbn [step].
  - unfold commit. cbn [now_ref deps_ref now_time data runs run_now requests].
    rewrite Hd.
    replace (Nat.eqb (S (deps_ref h)) (deps_ref h)) with false
      by (symmetry; apply Nat.eqb_neq; lia).
    unfold run_effect. cbn [runs].
    destruct g; cbn [runs]; apply stale_cancelled_snoc, Hs.
  - unfold commit. rewrite Hd, Nat.eqb_refl. exact Hs.
  - unfold start_fetch.
    destruct (runs h !! run) as [[c [| |]]|] eqn:E; try exact Hs.
    destruct (run_now h !! run); [| exact Hs].
    cbn [runs]. apply (stale_cancelled_insert _ _ _ _ _ E Hs).
  - unfold start_fetch.
    destruct (runs h !! run) as [[c [| |]]|] eqn:E; try exact Hs.
    destruct (run_now h !! run); [| exact Hs].
    cbn [runs]. apply (stale_cancelled_insert _ _ _ _ _ E Hs).
  - destruct (runs h !! run) as [[c [| |]]|] eqn:E; try exact Hs.
    cbn [runs]. apply (stale_cancelled_insert _ _ _ _ _ E Hs).
Qed.

Lemma run_events_stale_cancelled (g : bool) (t0 : Z) (es : list Event) :
  stale_cancelled (runs (run_events g es (mount g t0))).
Proof.
  assert (H : forall h, hook_inv h -> stale_cancelled (runs h) ->
                        stale_cancelled (runs (run_events g es h))).
  { unfold run_events. induction es as [|e es IH]; intros h Hi Hs; simpl;
      [exact Hs |].
    apply IH; [apply step_inv, Hi | apply step_stale_cancelled; assumption]. }
  apply H; [apply mount_inv |].
  intros i r Hi Hlen. unfold mount, run_effect in Hlen.
  destruct g; simpl in Hlen; lia.
Qed.

Lemma settle_cancelled (o : FetchOutcome) (d : WeatherData) :
  fetchWeather_settle true o d = d.
Proof. unfold fetchWeather_settle. destruct (try_fetch o); reflexivity. Qed.

(** X16: only the latest run of the effect can change the snapshot.  In
    every state the hook reaches, a fetch of an earlier run that settles,
    with whatever outcome, leaves the snapshot unchanged; so a response
    that arrives after the next clock tick is dropped. *)
Theorem weather_stale_response_dropped
    (g : bool) (t0 : Z) (es : list Event) (run : nat) (o : FetchOutcome) :
  let h := run_events g es (mount g t0) in
  ((S run < length (runs h))%nat ->
   data (step g (FetchSettles run o) h) = data h) /\
  (forall t : Z,
     (run < length (runs h))%nat ->
     data (step g (FetchSettles run o) (step g (Tick t) h)) = data h).
Proof.
  intros h.
  assert (Hstale : forall es' h', h' = run_events g es' (mount g t0) ->
            (S run < length (runs h'))%nat ->
            data (step g (FetchSettles run o) h') = data h').
  { intros es' h' -> Hlen. cbn [step].
    destruct (runs _ !! run) as [[c [| |]]|] eqn:E; try reflexivity.
    cbn [data].
    pose proof (run_events_stale_cancelled g t0 es' run _ E Hlen) as Hc.
    cbn [cancelled] in Hc. subst c. apply settle_cancelled. }
  split; [apply (Hstale es h eq_refl) |].
  intros t Hlen.
  assert (Hh' : step g (Tick t) h = run_events g (es ++ [Tick t]) (mount g t0)).
  { subst h. unfold run_events. rewrite fold_left_app. reflexivity. }
  rewrite (Hstale (es ++ [Tick t]) _ Hh').
  - cbn [step]. rewrite commit_data. reflexivity.
  - rewrite Hh'.
    pose proof (run_events_inv g (es ++ [Tick t]) _ (mount_inv g t0)) as [_ Hl _].
    pose proof (run_events_inv g es _ (mount_inv g t0)) as [_ Hl0 _].
    rewrite <- Hl, (run_events_run_now g _ _ (mount_inv g t0)).
    fold h in Hl0. rewrite <- Hl0 in Hlen.
    subst h. rewrite (run_events_run_now g _ _ (mount_inv g t0)) in Hlen.
    assert (Ht : tick_times (es ++ [Tick t]) = tick_times es ++ [t]).
    { clear. induction es as [|e es IH]; [reflexivity |].
      destruct e; simpl; rewrite IH; reflexivity. }
    rewrite Ht, !length_app in *. simpl. lia.
Qed.

Lemma weather_stale_response_dropped_witness :
  data (step false (FetchSettles 0 (FetchResponse true (BodyJson sample_payload)))
          (step false (Tick 1000) (run_events false [] (mount false 0))))
  = unknownWeather.
Proof.
  exact (proj2 (weather_stale_response_dropped false 0 [] 0
                  (FetchResponse true (BodyJson sample_payload)))
               1000%Z ltac:(simpl; lia)).
Defined.

Lemma step_requests (g : bool) (e : Event) (h : Hook) :
  requests (step g e h) = requests h \/
  exists r : Request,
    requests (step g e h) = requests h ++ [r] /\
    ((latitude r = fallback_lat /\ longitude r = fallback_lon) \/
     exists run : nat, e = GeoSuccess run (latitude r) (longitude r)).
Proof.
  destruct e as [t | | run lat lon | run | run o]; cbn [step].
  - unfold commit. cbn [now_ref deps_ref now_time data runs run_now requests].
    destruct (Nat.eqb (S (now_ref h)) (deps_ref h)); [left; reflexivity |].
    unfold run_effect. destruct g; cbn [requests now_time];
      [left; reflexivity |].
    right. eexists. split; [reflexivity |]. left. split; reflexivity.
  - unfold commit. destruct (Nat.eqb (now_ref h) (deps_ref h)); [left; reflexivity |].
    unfold run_effect. destruct g; cbn [requests now_time];
      [left; reflexivity |].
    right. eexists. split; [reflexivity |]. left. split; reflexivity.
  - unfold start_fetch.
    destruct (runs h !! run) as [[c [| |]]|]; try (left; reflexivity).
    destruct (run_now h !! run); [| left; reflexivity].
    right. eexists. split; [reflexivity |]. right. exists run. reflexivity.
  - unfold start_fetch.
    destruct (runs h !! run) as [[c [| |]]|]; try (left; reflexivity).
    destruct (run_now h !! run); [| left; reflexivity].
    right. eexists. split; [reflexivity |]. left. split; reflexivity.
  - destruct (runs h !! run) as [[c [| |]]|]; left; reflexivity.
Qed.

(** X17: the list of issued requests only grows, and every request asks
    either for the London fallback coordinates or for the coordinates a
    geolocation success callback delivered. *)
Theorem weather_request_provenance (g : bool) (t0 : Z) (es : list Event) :
  let h := run_events g es (mount g t0) in
  (forall e : Event, exists rs : list Request,
     requests (step g e h) = requests h ++ rs) /\
  (forall r : Request, In r (requests h) ->
     (latitude r = fallback_lat /\ longitude r = fallback_lon) \/
     exists run : nat, In (GeoSuccess run (latitude r) (longitude r)) es).
Proof.
  intros h. split.
  - intros e. destruct (step_requests g e h) as [H | [r [H _]]].
    + exists []. rewrite H. symmetry. apply app_nil_r.
    + exists [r]. exact H.
  - subst h. induction es as [|e es IH] using rev_ind; intros r Hr.
    + left. unfold run_events, mount, run_effect in Hr.
      destruct g; simpl in Hr; [contradiction |].
      destruct Hr as [<- | []]. split; reflexivity.
    + unfold run_events in Hr. rewrite fold_left_app in Hr. simpl in Hr.
      fold (run_events g es (mount g t0)) in Hr.
      destruct (step_requests g e (run_events g es (mount g t0)))
        as [H | [r' [H Hprov]]]; rewrite H in Hr.
      * destruct (IH r Hr) as [Hf | [run Hin]]; [left; exact Hf |].
        right. exists run. apply in_or_app. left. exact Hin.
      * apply in_app_or in Hr. destruct Hr as [Hr | [<- | []]].
        -- destruct (IH r Hr) as [Hf | [run Hin]]; [left; exact Hf |].
           right. exists run. apply in_or_app. left. exact Hin.
        -- destruct Hprov as [Hf | [run ->]]; [left; exact Hf |].
           right. exists run. apply in_or_app. right. left. reflexivity.
Qed.

Lemma weather_request_provenance_witness :
  Forall (fun r => latitude r = fallback_lat /\ longitude r = fallback_lon)
         (requests (run_events true [GeoError 0%nat] (mount true 0))).
Proof.
  apply List.Forall_forall. intros r Hr.
  destruct (proj2 (weather_request_provenance true 0 [GeoError 0%nat]) r Hr)
    as [H | [run [H | []]]]; [exact H | discriminate H].
Defined.

Lemma snapshot_of_not_object (j : json) :
  (forall props, j <> JObj props) -> snapshot_of j = unknownWeather.
Proof.
  intros H. destruct j; try reflexivity. exfalso. eapply H. reflexivity.
Qed.

(** X18: how a 200 payload is read.  A numeric [current.temperature_2m] or
    [current.weather_code] is kept as it is, zero included; the sunrise is
    built from the first element of [daily.sunrise] when that is a
    non-empty string, and is null when it is the empty string; and a
    payload that is not an object (null, a number, a string, an array)
    yields the all-null snapshot. *)
Theorem snapshot_of_reading (props cur daily : gmap string json) :
  (props !! "current"%string = Some (JObj cur) ->
   (forall q : Q, cur !! "temperature_2m"%string = Some (JNum q) ->
      temperatureC (snapshot_of (JObj props)) = Some q) /\
   (forall q : Q, cur !! "weather_code"%string = Some (JNum q) ->
      weatherCode (snapshot_of (JObj props)) = Some q)) /\
  (props !! "daily"%string = Some (JObj daily) ->
   forall (s : string) (rest : list json),
     daily !! "sunrise"%string = Some (JArr (JStr s :: rest)) ->
     sunrise (snapshot_of (JObj props))
     = if String.eqb s "" then None else Some (NewDate (JStr s))) /\
  (forall j : json, (forall p, j <> JObj p) -> snapshot_of j = unknownWeather).
Proof.
  split; [| split; [| apply snapshot_of_not_object]].
  - intros Hc. split; intros q Hq; unfold snapshot_of; cbn [temperatureC weatherCode];
      unfold member; rewrite Hc, Hq; reflexivity.
  - intros Hd s rest Hs. unfold snapshot_of. cbn [sunrise].
    unfold member. rewrite Hd, Hs. unfold item0, date_or_null, truthy.
    cbn.
    destruct (String.eqb s ""); reflexivity.
Qed.

Lemma snapshot_of_reading_witness :
  temperatureC (snapshot_of
    (JObj {[ "current"%string := JObj {[ "temperature_2m"%string := JNum 0 ]} ]}))
  = Some 0.
Proof.
  exact (proj1 (proj1 (snapshot_of_reading
                         {[ "current"%string := JObj {[ "temperature_2m"%string := JNum 0 ]} ]}
                         {[ "temperature_2m"%string := JNum 0 ]} ∅)
                      eq_refl) 0 eq_refl).
Defined.

Lemma length_string_app (s1 s2 : string) :
  String.length (s1 ++ s2)%string = (String.length s1 + String.length s2)%nat.
Proof.
  induction s1 as [|c s1 IH]; [reflexivity |].
  change (String.length (String c (s1 ++ s2)%string)
          = S (String.length s1 + String.length s2)).
  simpl. rewrite IH. reflexivity.
Qed.

(** X19: the temperature text shows the placeholder [--] exactly when the
    temperature is unknown; a known temperature, zero included, is shown
    as its rounding to the nearest whole number (ties upwards) followed by
    the unit, so a payload with temperature 0 is displayed as 0. *)
Theorem temperatureText_known (t : option Q) :
  (temperatureText t = "--"%string <-> t = None) /\
  (forall q : Q, t = Some q ->
     temperatureText t = (toString (Math_round q) ++ "?C")%string) /\
  temperatureText (Some 0) = "0?C"%string /\
  temperatureText (Some 18.5) = "19?C"%string /\
  temperatureText (Some (- 0.4)) = "0?C"%string.
Proof.
  split; [| split; [intros q ->; reflexivity | repeat split; reflexivity]].
  split; [| intros ->; reflexivity].
  destruct t as [q|]; [| reflexivity]. intros H. exfalso.
  unfold temperatureText in H.
  assert (Hl : String.length (toString (Math_round q) ++ "?C")%string = 2%nat)
    by (rewrite H; reflexivity).
  rewrite length_string_app in Hl. simpl in Hl.
  destruct (toString (Math_round q)) as [|c s]; simpl in *; [discriminate H | lia].
Qed.

Lemma temperatureText_known_witness :
  temperatureText (temperatureC (snapshot_of sample_payload)) = "18?C"%string.
Proof.
  rewrite (proj1 (proj2 (temperatureText_known
                           (temperatureC (snapshot_of sample_payload))))
             18.4 eq_refl).
  reflexivity.
Defined.

(* ===================================================================== *)
(** ** Formatting, the projected date and the persisted selection *)
(* ===================================================================== *)

Section FormattingFacts.
Local Open Scope Z_scope.

Lemma number_of_two_digits (n : Z) :
  0 <= n <= 99 -> number_of (two_digits n) 0 = Some n.
Proof.
  intros Hn. unfold two_digits.
  rewrite number_of_two by (Z.div_mod_to_equations; lia).
  f_equal. Z.div_mod_to_equations. lia.
Qed.

(** X20: [formatTwoDigits] pads, and never truncates.  For 0..99 it yields
    exactly two decimal digits that read back as the number, with a
    leading zero below 10; a number from 100 to 999 comes out as its three
    digits, and a negative one from -9 to -1 as the minus sign and its
    digit, without a zero. *)
Theorem formatTwoDigits_pads (n : Z) :
  (0 <= n <= 99 ->
   String.length (formatTwoDigits n) = 2%nat /\
   number_of (formatTwoDigits n) 0 = Some n /\
   (n <= 9 -> formatTwoDigits n = String "0" (toString n))) /\
  (100 <= n <= 999 ->
   formatTwoDigits n = toString n /\ String.length (formatTwoDigits n) = 3%nat) /\
  (-9 <= n <= -1 ->
   formatTwoDigits n = String "-" (toString (- n))).
Proof.
  split; [| split].
  - intros Hn. rewrite formatTwoDigits_two by lia.
    split; [reflexivity |]. split; [apply number_of_two_digits, Hn |].
    intros H9. apply String.eqb_eq.
    apply (all_between
             (fun z => String.eqb (two_digits z) (String "0" (toString z))) 0 10);
      [vm_compute; reflexivity | lia].
  - intros Hn.
    pose proof (all_between
      (fun z => String.eqb (formatTwoDigits z) (toString z)
                && Nat.eqb (String.length (formatTwoDigits z)) 3)%bool
      100 1000 ltac:(vm_compute; reflexivity) n ltac:(lia)) as H.
    cbv beta in H. apply andb_prop in H as [H1 H2].
    apply String.eqb_eq in H1. apply Nat.eqb_eq in H2. split; assumption.
  - intros Hn. apply String.eqb_eq.
    apply (all_between
             (fun z => String.eqb (formatTwoDigits z) (String "-" (toString (- z))))
             (-9) 0);
      [vm_compute; reflexivity | lia].
Qed.

Lemma formatTwoDigits_pads_witness :
  formatTwoDigits 7 = "07"%string /\ formatTwoDigits 123 = "123"%string
  /\ formatTwoDigits (-5) = "-5"%string.
Proof.
  split; [| split].
  - rewrite (proj2 (proj2 (proj1 (formatTwoDigits_pads 7) ltac:(lia))) ltac:(lia)).
    reflexivity.
  - rewrite (proj1 (proj1 (proj2 (formatTwoDigits_pads 123)) ltac:(lia))).
    reflexivity.
  - rewrite (proj2 (proj2 (formatTwoDigits_pads (-5))) ltac:(lia)).
    reflexivity.
Defined.

(** X21: [formatHhMm] always yields five characters, two digits, a colon
    and two digits, and the hour and the minute read back from it: two
    dates get the same text exactly when they agree on hour and minute. *)
Theorem formatHhMm_round_trip (now : Date) :
  String.length (formatHhMm now) = 5%nat /\
  substring 2 1 (formatHhMm now) = ":"%string /\
  number_of (substring 0 2 (formatHhMm now)) 0 = Some (getHours now) /\
  number_of (substring 3 2 (formatHhMm now)) 0 = Some (getMinutes now) /\
  (forall other : Date,
     formatHhMm other = formatHhMm now <->
     getHours other = getHours now /\ getMinutes other = getMinutes now).
Proof.
  assert (Hparts : forall d : Date,
            String.length (formatHhMm d) = 5%nat /\
            substring 2 1 (formatHhMm d) = ":"%string /\
            number_of (substring 0 2 (formatHhMm d)) 0 = Some (getHours d) /\
            number_of (substring 3 2 (formatHhMm d)) 0 = Some (getMinutes d)).
  { intros d. rewrite formatHhMm_zero_padded.
    pose proof (getHours_range d) as Hh. pose proof (getMinutes_range d) as Hm.
    pose proof (number_of_two_digits (getHours d) ltac:(lia)) as Ph.
    pose proof (number_of_two_digits (getMinutes d) ltac:(lia)) as Pm.
    unfold two_digits in *.
    lazy beta iota zeta delta [String.append String.length String.substring].
    repeat split; assumption. }
  destruct (Hparts now) as [H1 [H2 [H3 H4]]].
  split; [exact H1 |]. split; [exact H2 |]. split; [exact H3 |].
  split; [exact H4 |].
  intros other. split.
  - intros Heq. destruct (Hparts other) as [_ [_ [H3' H4']]].
    rewrite Heq in H3', H4'. split; congruence.
  - intros [Hh Hm]. unfold formatHhMm. rewrite Hh, Hm. reflexivity.
Qed.

End FormattingFacts.


Section ZonedInstant.
Local Open Scope Z_scope.

(** X22: for an instant whose wall-clock year in the zone has four digits,
    [getZonedDate] returns the valid date the host's time zone makes of the
    zone's wall-clock time, cut to whole seconds and read as a local time
    of the host.  When the host's clock shows that local time, the date's
    local hour, minute and second are the zone's; a host that keeps one
    UTC offset shows every local time, and projecting into a zone with that
    offset gives back the instant without its milliseconds. *)
Theorem getZonedDate_instant
    (tzdata : string -> Z -> Z) (host : TimeZone) (tz : string) (now : Z) :
  four_digit_year (now + tzdata tz now) ->
  let wall := now + tzdata tz now in
  let d := Date_of_local host (wall / 1000 * 1000) in
  getZonedDate tzdata host tz now = Some d /\
  (host_shows host (wall / 1000 * 1000) ->
   getHours d = (wall / 3600000) mod 24 /\
   getMinutes d = (wall / 60000) mod 60 /\
   getSeconds d = (wall / 1000) mod 60 /\
   getMilliseconds d = 0) /\
  (forall off : Z,
     host = fixed_zone off ->
     host_shows host (wall / 1000 * 1000) /\
     utcOffset d = off /\
     (tzdata tz now = off -> getTime d = now - wall mod 1000)).
Proof.
  intros Hw wall d.
  split; [apply getZonedDate_value, Hw |]. split.
  - intros Hs. unfold host_shows in Hs. fold d in Hs.
    unfold getHours, getMinutes, getSeconds, getMilliseconds. rewrite Hs.
    destruct (whole_seconds_fields wall) as [H1 [H2 H3]].
    split; [exact H1 |]. split; [exact H2 |]. split; [exact H3 |].
    clear. Z.div_mod_to_equations. lia.
  - intros off ->. split; [apply host_shows_fixed_zone |].
    subst d. unfold Date_of_local, Date_at, UTC, possibleInstants, offsetAt, fixed_zone.
    cbn [initialOffset transitions instants_from offset_from getTime utcOffset].
    split; [reflexivity |].
    intros Hsame. subst wall. rewrite Hsame.
    clear. Z.div_mod_to_equations. lia.
Qed.

Lemma getZonedDate_instant_witness :
  getHours (Date_of_local new_york_2024
              ((mid_june_2024 + sample_tzdata "Asia/Tokyo" mid_june_2024) / 1000 * 1000))
  = 21 /\
  getTime (Date_of_local (fixed_zone 0)
             ((mid_june_2024 + sample_tzdata "UTC" mid_june_2024) / 1000 * 1000))
  = mid_june_2024.
Proof.
  split.
  - exact (proj1 (proj1 (proj2 (getZonedDate_instant sample_tzdata new_york_2024
                                  "Asia/Tokyo" mid_june_2024
                                  ltac:(unfold four_digit_year; vm_compute;
                                        split; discriminate || reflexivity)))
                    ltac:(vm_compute; reflexivity))).
  - exact (proj2 (proj2 (proj2 (proj2 (getZonedDate_instant sample_tzdata (fixed_zone 0)
                                         "UTC" mid_june_2024
                                         ltac:(unfold four_digit_year; vm_compute;
                                               split; discriminate || reflexivity)))
                                  0 eq_refl)) eq_refl).
Defined.

End ZonedInstant.

Lemma timezones_nonempty (v : string) : In v timezones -> v <> ""%string.
Proof.
  unfold timezones. simpl. intros H.
  repeat (destruct H as [<- | H]; [discriminate |]). contradiction.
Qed.

(** X23: the second-timezone selection survives a reload, and the battery
    reset leaves it alone: after the selector stored one of its options,
    the initial state of the next page load is that option, also when the
    reset button cleared the battery items in between; with nothing stored,
    with the empty string stored, or without a window, it is UTC. *)
Theorem secondTimezone_persists (v : string) (ls : gmap string string) :
  (In v timezones ->
   initialSecondTimezone true (snd (selectTimezone true v ls)) = v /\
   initialSecondTimezone true (resetBattery (snd (selectTimezone true v ls))) = v) /\
  (ls !! key_secondTz = None -> initialSecondTimezone true ls = "UTC"%string) /\
  (ls !! key_secondTz = Some ""%string ->
   initialSecondTimezone true ls = "UTC"%string) /\
  initialSecondTimezone false ls = "UTC"%string /\
  resetBattery ls !! key_secondTz = ls !! key_secondTz.
Proof.
  assert (Hreset : forall m : gmap string string,
            resetBattery m !! key_secondTz = m !! key_secondTz).
  { intros m. unfold resetBattery.
    rewrite !lookup_delete_ne by (vm_compute; discriminate). reflexivity. }
  split; [| split; [| split; [| split]]].
  - intros Hv. apply timezones_nonempty in Hv.
    assert (Hl : snd (selectTimezone true v ls) !! key_secondTz = Some v)
      by (simpl; apply lookup_insert_eq).
    assert (He : String.eqb v "" = false) by (apply String.eqb_neq; exact Hv).
    unfold initialSecondTimezone. rewrite Hreset, Hl, He. split; reflexivity.
  - intros H. unfold initialSecondTimezone. rewrite H. reflexivity.
  - intros H. unfold initialSecondTimezone. rewrite H. reflexivity.
  - reflexivity.
  - apply Hreset.
Qed.

Lemma secondTimezone_persists_witness :
  initialSecondTimezone true (snd (selectTimezone true "Asia/Tokyo" ∅))
  = "Asia/Tokyo"%string.
Proof.
  exact (proj1 (proj1 (secondTimezone_persists "Asia/Tokyo" ∅)
                  ltac:(simpl; tauto))).
Defined.
